(** * Registration form: validation schema and file-input handlers

    A shallow embedding of [src/App.tsx]: the zod schema [formSchema], the
    way [zodResolver] turns its issues into one message per field, and the
    two [onChange] handlers of the file inputs.

    Conventions of the model.
    - A JavaScript string is a [string]; its characters are the code units
      below 256.
    - A JavaScript number is [NaN], an infinity or a finite value kept as an
      exact rational.  Time values (milliseconds since the epoch) are
      integers, so they are kept in [Z]; the quotient of line 54 is floored
      exactly.
    - The clock is read twice by the source: once when the module is
      evaluated and the schema is built (line 24) and once per validation
      (line 54).  The two readings are the parameters [created] and [now].
    - The schema combinators follow zod 3: a parser returns a status
      (valid, dirty, aborted) and appends issues to the shared issue list;
      [z.number()] takes every number but NaN.  The resolver awaits
      [parseAsync]; the schema has no asynchronous refinement, so statuses
      and issues are those written here, and the issues of one path come in
      the order written here. *)

From Stdlib Require Import ZArith NArith QArith Qround Bool List String Ascii Lia.
Import ListNotations.
Local Open Scope string_scope.
Local Open Scope list_scope.
Set Warnings "-register-all".

(* ------------------------------------------------------------------ *)
(** ** JavaScript values *)

Module JS.

(** [s.startsWith(p)] *)
Definition startsWith (s p : string) : bool := String.prefix p s.

(** [c.toLowerCase()] on one code unit below 256: A-Z and the accented
    capitals of Latin-1 (all of 192..222 but the multiplication sign). *)
Definition lowerChar (c : ascii) : ascii :=
  let n := nat_of_ascii c in
  if ((65 <=? n) && (n <=? 90))%nat then ascii_of_nat (n + 32)
  else if ((192 <=? n) && (n <=? 222) && negb (n =? 215))%nat
       then ascii_of_nat (n + 32)
  else c.

(** [s.toLowerCase()] on code units below 256, where the builtin maps unit
    to unit.  Beyond that range it can lengthen a string, so what is said of
    the length rule of the website is said of the lower-case form. *)
Fixpoint toLowerCase (s : string) : string :=
  match s with
  | EmptyString => EmptyString
  | String c r => String (lowerChar c) (toLowerCase r)
  end.

(** [s.indexOf(needle)], -1 when [needle] does not occur. *)
Definition indexOf (s needle : string) : Z :=
  match String.index 0 needle s with
  | Some i => Z.of_nat i
  | None => (-1)%Z
  end.

Inductive number :=
| NaN
| Infinity (negative : bool)
| Finite (q : Q).

Definition ofZ (z : Z) : number := Finite (inject_Z z).

(** [a < b] *)
Definition lt (a b : number) : bool :=
  match a, b with
  | NaN, _ | _, NaN => false
  | Infinity true, Infinity true => false
  | Infinity true, _ => true
  | _, Infinity true => false
  | Infinity false, _ => false
  | _, Infinity false => true
  | Finite x, Finite y => negb (Qle_bool y x)
  end.

(** [a === b] on numbers *)
Definition strictEq (a b : number) : bool :=
  match a, b with
  | Finite x, Finite y => Qeq_bool x y
  | Infinity s, Infinity s' => Bool.eqb s s'
  | _, _ => false
  end.

(** [Number.isInteger(a)] *)
Definition isInteger (a : number) : bool :=
  match a with
  | Finite q => Qeq_bool q (inject_Z (Qfloor q))
  | _ => false
  end.

(** A [Date] object is its time value; [None] is the time value NaN of an
    invalid date. *)
Definition Date := option Z.

(** [new Date(t)] for an integral [t]: TimeClip. *)
Definition newDate (t : Z) : Date :=
  if (Z.abs t <=? 8640000000000000)%Z then Some t else None.

Definition getTime (d : Date) : option Z := d.

Record File := { fileName : string; type : string; size : N }.

Inductive value :=
| undefined
| null
| Bool (b : bool)
| Num (n : number)
| Str (s : string)
| DateObj (d : Date)
| FileObj (f : File)
| Arr (l : list value)
| Obj.                       (* any other object *)

(** [x ? ... : ...] on an optional file: what [files[0]] evaluates to. *)
Definition ofFile (f : option File) : value :=
  match f with Some f => FileObj f | None => undefined end.

End JS.

(* ------------------------------------------------------------------ *)
(** ** Regular expressions, matched by derivatives

    [RegExp.prototype.test] on a pattern anchored by [^] and [$], without
    back-references or look-around, decides membership of the whole string
    in the language of the pattern. *)

Module Regex.

Inductive t :=
| Void
| Eps
| Class (p : ascii -> bool)
| Seq (r1 r2 : t)
| Alt (r1 r2 : t)
| Star (r : t).

Definition Opt (r : t) : t := Alt r Eps.
Definition Plus (r : t) : t := Seq r (Star r).
Definition Chr (c : ascii) : t := Class (Ascii.eqb c).

Fixpoint nullable (r : t) : bool :=
  match r with
  | Void => false
  | Eps => true
  | Class _ => false
  | Seq a b => nullable a && nullable b
  | Alt a b => nullable a || nullable b
  | Star _ => true
  end.

Fixpoint deriv (c : ascii) (r : t) : t :=
  match r with
  | Void => Void
  | Eps => Void
  | Class p => if p c then Eps else Void
  | Seq a b =>
      if nullable a then Alt (Seq (deriv c a) b) (deriv c b)
      else Seq (deriv c a) b
  | Alt a b => Alt (deriv c a) (deriv c b)
  | Star a => Seq (deriv c a) (Star a)
  end.

Fixpoint test (r : t) (s : string) : bool :=
  match s with
  | EmptyString => nullable r
  | String c s' => test (deriv c r) s'
  end.

(** [\d] and [[0-9]] *)
Definition digit : t :=
  Class (fun c => (48 <=? nat_of_ascii c)%nat && (nat_of_ascii c <=? 57)%nat).

(** [\s] below 256: tab, line feed, vertical tab, form feed, carriage
    return, space, no-break space. *)
Definition isSpace (c : ascii) : bool :=
  let n := nat_of_ascii c in
  ((9 <=? n) && (n <=? 13) || (n =? 32) || (n =? 160))%nat.

Definition space : t := Class isSpace.

End Regex.

(** [/^([+]?[\s0-9]+)?(\d{3}|[(]?[0-9]+[)])?([-]?[\s]?[0-9])+$/] *)
Definition phoneRegex : Regex.t :=
  let spaceOrDigit :=
    Regex.Class (fun c => Regex.isSpace c
                          || ((48 <=? nat_of_ascii c)%nat
                              && (nat_of_ascii c <=? 57)%nat)) in
  Regex.Seq
    (Regex.Opt (Regex.Seq (Regex.Opt (Regex.Chr "+")) (Regex.Plus spaceOrDigit)))
    (Regex.Seq
       (Regex.Opt
          (Regex.Alt
             (Regex.Seq Regex.digit (Regex.Seq Regex.digit Regex.digit))
             (Regex.Seq (Regex.Opt (Regex.Chr "("))
                        (Regex.Seq (Regex.Plus Regex.digit) (Regex.Chr ")")))))
       (Regex.Plus
          (Regex.Seq (Regex.Opt (Regex.Chr "-"))
                     (Regex.Seq (Regex.Opt Regex.space) Regex.digit)))).

(* ------------------------------------------------------------------ *)
(** ** The zod combinators used by the schema *)

Module Zod.
Import JS.

Inductive ZodParsedType :=
| t_undefined | t_null | t_boolean | t_nan | t_number | t_string
| t_date | t_array | t_object.

Definition getParsedType (v : value) : ZodParsedType :=
  match v with
  | undefined => t_undefined
  | null => t_null
  | Bool _ => t_boolean
  | Num NaN => t_nan
  | Num _ => t_number
  | Str _ => t_string
  | DateObj _ => t_date
  | Arr _ => t_array
  | FileObj _ | Obj => t_object
  end.

Definition typeName (t : ZodParsedType) : string :=
  match t with
  | t_undefined => "undefined" | t_null => "null" | t_boolean => "boolean"
  | t_nan => "nan" | t_number => "number" | t_string => "string"
  | t_date => "date" | t_array => "array" | t_object => "object"
  end.

Inductive ZodIssueCode :=
| invalid_type | invalid_literal | custom | invalid_union
| invalid_string | invalid_date | too_small | too_big.

Inductive key := Field (k : string) | Index (i : nat).

(** An issue.  [unionErrors] is [Some] on an [invalid_union] issue only and
    holds, per option of the union, the issues of that option.  No option
    of a union of this schema is itself a union, so the nested issues are
    kept as triples. *)
Record ZodIssue := {
  code : ZodIssueCode;
  path : list key;
  message : string;
  unionErrors : option (list (list (ZodIssueCode * list key * string)))
}.

Definition issue (c : ZodIssueCode) (p : list key) (m : string) : ZodIssue :=
  {| code := c; path := p; message := m; unionErrors := None |}.

Definition plain (i : ZodIssue) : ZodIssueCode * list key * string :=
  (code i, path i, message i).

(** The default error map on an [invalid_type] issue. *)
Definition invalidType (p : list key) (expected : ZodParsedType) (v : value)
  : ZodIssue :=
  issue invalid_type p
    (match getParsedType v with
     | t_undefined => "Required"
     | r => "Expected " ++ typeName expected ++ ", received " ++ typeName r
     end).

(** What [_parse] returns: [INVALID] carries no value. *)
Inductive ParseReturn (A : Type) :=
| INVALID
| DIRTY (v : A)
| OK (v : A).
Arguments INVALID {A}.
Arguments DIRTY {A} v.
Arguments OK {A} v.

(** A schema parses an input at a path and returns its result together
    with the issues it appended to the context. *)
Definition Schema (I A : Type) : Type :=
  list key -> I -> ParseReturn A * list ZodIssue.

Definition withStatus {A} (isDirty : bool) (v : A) : ParseReturn A :=
  if isDirty then DIRTY v else OK v.

Definition isAborted {A} (r : ParseReturn A) : bool :=
  match r with INVALID => true | _ => false end.

Definition isDirty {A} (r : ParseReturn A) : bool :=
  match r with DIRTY _ => true | _ => false end.

(** *** z.string() and its checks *)

Inductive ZodStringCheck :=
| str_min (value : nat) (msg : string)
| str_regex (r : Regex.t) (msg : string)
| str_toLowerCase.

Fixpoint stringChecks (p : list key) (checks : list ZodStringCheck)
         (data : string) : bool * string * list ZodIssue :=
  match checks with
  | [] => (false, data, [])
  | c :: rest =>
      let '(failed, data', here) :=
        match c with
        | str_min n msg =>
            if (String.length data <? n)%nat
            then (true, data, [issue too_small p msg])
            else (false, data, [])
        | str_regex r msg =>
            if Regex.test r data then (false, data, [])
            else (true, data, [issue invalid_string p msg])
        | str_toLowerCase => (false, toLowerCase data, [])
        end in
      let '(d, out, later) := stringChecks p rest data' in
      (failed || d, out, here ++ later)
  end.

Definition string (checks : list ZodStringCheck) : Schema value String.string :=
  fun p v =>
    match v with
    | Str s =>
        let '(d, out, iss) := stringChecks p checks s in
        (withStatus d out, iss)
    | _ => (INVALID, [invalidType p t_string v])
    end.

(** *** z.number().min(v, msg) *)

Inductive ZodNumberCheck :=
| num_min (value : number) (msg : String.string).

Fixpoint numberChecks (p : list key) (checks : list ZodNumberCheck)
         (data : number) : bool * list ZodIssue :=
  match checks with
  | [] => (false, [])
  | num_min v msg :: rest =>
      let (d, later) := numberChecks p rest data in
      if lt data v then (true, issue too_small p msg :: later)
      else (d, later)
  end.

Definition number (checks : list ZodNumberCheck) : Schema value JS.number :=
  fun p v =>
    match v with
    | Num n =>
        match n with
        | NaN => (INVALID, [invalidType p t_number v])
        | _ => let (d, iss) := numberChecks p checks n in (withStatus d n, iss)
        end
    | _ => (INVALID, [invalidType p t_number v])
    end.

(** *** z.date().max(d, msg)

    [max] stores [d.getTime()]; the check fails when the time value of
    the input is greater.  Against the NaN of an invalid bound the
    comparison is false. *)

Inductive ZodDateCheck :=
| date_max (value : option Z) (msg : String.string).

Fixpoint dateChecks (p : list key) (checks : list ZodDateCheck) (t : Z)
  : bool * list ZodIssue :=
  match checks with
  | [] => (false, [])
  | date_max v msg :: rest =>
      let (d, later) := dateChecks p rest t in
      match v with
      | Some bound =>
          if (t >? bound)%Z then (true, issue too_big p msg :: later)
          else (d, later)
      | None => (d, later)
      end
  end.

(** The output is [new Date(input.getTime())], a valid date, kept as its
    time value. *)
Definition date (checks : list ZodDateCheck) : Schema value Z :=
  fun p v =>
    match v with
    | DateObj d =>
        match getTime d with
        | None => (INVALID, [issue invalid_date p "Invalid date"])
        | Some t => let (d, iss) := dateChecks p checks t in (withStatus d t, iss)
        end
    | _ => (INVALID, [invalidType p t_date v])
    end.

(** *** Effects: refine and superRefine *)

Record IssueData := {
  i_code : ZodIssueCode;
  i_message : String.string;
  i_path : list key;
  i_fatal : bool
}.

(** [ZodEffects] with a refinement: nothing runs on an aborted inner
    result; otherwise the callback sees the inner value, every issue it
    adds is put under the current path, a fatal one aborts and any other
    makes the result dirty. *)
Definition superRefine {I A} (inner : Schema I A) (f : A -> list IssueData)
  : Schema I A :=
  fun p x =>
    let (r, iss) := inner p x in
    match r with
    | INVALID => (INVALID, iss)
    | DIRTY v | OK v =>
        let added := f v in
        let out := iss ++ map (fun d => issue (i_code d) (p ++ i_path d)
                                         (i_message d)) added in
        if existsb i_fatal added then (INVALID, out)
        else (withStatus (isDirty r || negb (Nat.eqb (List.length added) 0)) v, out)
    end.

Definition refine {I A} (inner : Schema I A) (check : A -> bool)
           (msg : String.string) : Schema I A :=
  superRefine inner
    (fun v => if check v then []
              else [{| i_code := custom; i_message := msg; i_path := [];
                       i_fatal := false |}]).

(** [z.instanceof(File, params)] is [z.custom(data => data instanceof File,
    params)]: a refinement of [z.any()] whose issue is fatal. *)
Definition instanceofFile (msg : String.string) : Schema value File :=
  fun p v =>
    match v with
    | FileObj f => (OK f, [])
    | _ => (INVALID, [issue custom p msg])
    end.

Definition instanceofFile_default : String.string := "Input not instance of File".

(** *** optional, literal, or *)

Definition optional {A} (inner : Schema value A) : Schema value (option A) :=
  fun p v =>
    match v with
    | undefined => (OK None, [])
    | _ => let (r, iss) := inner p v in
           (match r with
            | INVALID => INVALID
            | DIRTY a => DIRTY (Some a)
            | OK a => OK (Some a)
            end, iss)
    end.

Definition quote : String.string := String "034"%char EmptyString.

Definition literal (expected : String.string) : Schema value String.string :=
  fun p v =>
    match v with
    | Str s =>
        if String.eqb s expected then (OK s, [])
        else (INVALID, [issue invalid_literal p
                          ("Invalid literal value, expected "
                             ++ quote ++ expected ++ quote)])
    | _ => (INVALID, [issue invalid_literal p
                        ("Invalid literal value, expected "
                           ++ quote ++ expected ++ quote)])
    end.

(** [a.or(b)] is [z.union([a, b])].  Each option is parsed against a
    context of its own.  The first valid option is returned at once;
    failing that the first dirty option is returned and its issues are
    appended; failing that one [invalid_union] issue holds the issues of
    every option that raised some. *)
Definition or {A B} (a : Schema value A) (b : Schema value B)
  : Schema value (A + B) :=
  fun p v =>
    let (ra, ia) := a p v in
    let (rb, ib) := b p v in
    match ra, rb with
    | OK x, _ => (OK (inl x), [])
    | _, OK y => (OK (inr y), [])
    | DIRTY x, _ => (DIRTY (inl x), ia)
    | _, DIRTY y => (DIRTY (inr y), ib)
    | INVALID, INVALID =>
        (INVALID,
         [{| code := invalid_union; path := p; message := "Invalid input";
             unionErrors :=
               Some (filter (fun l => negb (Nat.eqb (List.length l) 0))
                            [map plain ia; map plain ib]) |}])
    end.

(** *** z.array(element).max(n, msg)

    The length check comes first, then every element is parsed at
    [path ++ [i]]; an aborted element aborts the array. *)

Fixpoint elements {A} (element : Schema value A) (p : list key) (i : nat)
         (l : list value) : ParseReturn (list A) * list ZodIssue :=
  match l with
  | [] => (OK [], [])
  | x :: rest =>
      let (r, here) := element (p ++ [Index i]) x in
      let (rs, later) := elements element p (S i) rest in
      (match r, rs with
       | INVALID, _ | _, INVALID => INVALID
       | DIRTY a, (DIRTY l' | OK l') | OK a, DIRTY l' => DIRTY (a :: l')
       | OK a, OK l' => OK (a :: l')
       end, here ++ later)
  end.

Definition array {A} (element : Schema value A)
           (maxLength : option (nat * String.string)) : Schema value (list A) :=
  fun p v =>
    match v with
    | Arr l =>
        let (tooLong, first) :=
          match maxLength with
          | Some (n, msg) =>
              if (n <? List.length l)%nat then (true, [issue too_big p msg])
              else (false, [])
          | None => (false, [])
          end in
        let (r, iss) := elements element p 0 l in
        (match r with
         | INVALID => INVALID
         | DIRTY l' => DIRTY l'
         | OK l' => withStatus tooLong l'
         end, first ++ iss)
    | _ => (INVALID, [invalidType p t_array v])
    end.

(** *** Objects: merging the results of two keys

    Every key of the shape is parsed, in the order of the shape; one
    aborted key aborts the object, one dirty key makes it dirty. *)
Definition both {A B} (ra : ParseReturn A * list ZodIssue)
           (rb : ParseReturn B * list ZodIssue)
  : ParseReturn (A * B) * list ZodIssue :=
  (match fst ra, fst rb with
   | INVALID, _ | _, INVALID => INVALID
   | DIRTY a, (DIRTY b | OK b) | OK a, DIRTY b => DIRTY (a, b)
   | OK a, OK b => OK (a, b)
   end, snd ra ++ snd rb).

Definition mapResult {A B} (f : A -> B) (s : ParseReturn A * list ZodIssue)
  : ParseReturn B * list ZodIssue :=
  (match fst s with
   | INVALID => INVALID
   | DIRTY a => DIRTY (f a)
   | OK a => OK (f a)
   end, snd s).

(** [schema.safeParse(x)]: the data, or the issues of the [ZodError]. *)
Definition safeParse {I A} (s : Schema I A) (x : I) : A + list ZodIssue :=
  match s [] x with
  | (OK v, _) => inl v
  | (_, iss) => inr iss
  end.

End Zod.

(* ------------------------------------------------------------------ *)
(** ** The schema of the form (lines 10-66) *)

Import JS.

(** The object handed to the schema: the field values of the form.  A key
    that is absent reads as [undefined]. *)
Module Draft.
Record t := {
  name : value;
  age : value;
  phone : value;
  website : value;
  dateOfBirth : value;
  avatar : value;
  additionalPictures : value
}.

(** Writing one key, as [field.onChange] and the registered inputs do. *)
Definition set_name (v : value) (d : t) : t :=
  {| name := v; age := age d; phone := phone d; website := website d;
     dateOfBirth := dateOfBirth d; avatar := avatar d;
     additionalPictures := additionalPictures d |}.
Definition set_age (v : value) (d : t) : t :=
  {| name := name d; age := v; phone := phone d; website := website d;
     dateOfBirth := dateOfBirth d; avatar := avatar d;
     additionalPictures := additionalPictures d |}.
Definition set_website (v : value) (d : t) : t :=
  {| name := name d; age := age d; phone := phone d; website := v;
     dateOfBirth := dateOfBirth d; avatar := avatar d;
     additionalPictures := additionalPictures d |}.
Definition set_dateOfBirth (v : value) (d : t) : t :=
  {| name := name d; age := age d; phone := phone d; website := website d;
     dateOfBirth := v; avatar := avatar d;
     additionalPictures := additionalPictures d |}.
Definition set_avatar (v : value) (d : t) : t :=
  {| name := name d; age := age d; phone := phone d; website := website d;
     dateOfBirth := dateOfBirth d; avatar := v;
     additionalPictures := additionalPictures d |}.
Definition set_additionalPictures (v : value) (d : t) : t :=
  {| name := name d; age := age d; phone := phone d; website := website d;
     dateOfBirth := dateOfBirth d; avatar := avatar d;
     additionalPictures := v |}.
End Draft.

(** [z.infer<typeof formSchema>] *)
Module FormValues.
Record t := {
  name : string;
  age : number;
  phone : option string + string;
  website : option string + string;
  dateOfBirth : Z;
  avatar : File;
  additionalPictures : option (list File)
}.
End FormValues.

Definition nameSchema : Zod.Schema value string :=
  Zod.string [Zod.str_min 1 "Required"].

Definition ageSchema : Zod.Schema value number :=
  Zod.number [Zod.num_min (ofZ 10) "Must be at least 10 years old"].

Definition phoneSchema : Zod.Schema value (option string + string) :=
  Zod.or (Zod.optional (Zod.string [Zod.str_regex phoneRegex "Invalid"]))
         (Zod.literal EmptyString).

Definition websiteSchema : Zod.Schema value (option string + string) :=
  Zod.or
    (Zod.optional
       (Zod.refine
          (Zod.string [Zod.str_toLowerCase;
                       Zod.str_min 5 "Must be a minimum of 5 characters"])
          (fun v => negb (indexOf v "." =? -1)%Z)
          "Invalid"))
    (Zod.literal EmptyString).

(** [created] is what [Date.now()] returned when the module was evaluated. *)
Definition dateOfBirthSchema (created : Z) : Zod.Schema value Z :=
  Zod.date
    [Zod.date_max (getTime (newDate (created - 10 * 365 * 24 * 60 * 60 * 1000)))
                  "Must be at least 10 years old"].

Definition isImage (f : File) : bool := startsWith (type f) "image/".

Definition avatarSchema : Zod.Schema value File :=
  Zod.refine
    (Zod.refine (Zod.instanceofFile "Required") isImage "Invalid file type")
    (fun f => (size f <=? 5 * 1024 * 1024)%N)
    "Image size must be less than 5MB".

Definition pictureSchema : Zod.Schema value File :=
  Zod.refine
    (Zod.refine (Zod.instanceofFile Zod.instanceofFile_default) isImage
                "Invalid file type")
    (fun f => (size f <=? 50 * 1024 * 1024)%N)
    "Image size must be less than 50MB".

Definition additionalPicturesSchema : Zod.Schema value (option (list File)) :=
  Zod.optional (Zod.array pictureSchema (Some (5%nat, "Maximum 5 images allowed"))).

(** [z.object({...})]: the keys in the order of the shape. *)
Definition formObject (created : Z) : Zod.Schema Draft.t FormValues.t :=
  fun p d =>
    let at_ k := p ++ [Zod.Field k] in
    Zod.mapResult
      (fun '(n, a, ph, w, dob, av, ap) =>
         {| FormValues.name := n; FormValues.age := a; FormValues.phone := ph;
            FormValues.website := w; FormValues.dateOfBirth := dob;
            FormValues.avatar := av; FormValues.additionalPictures := ap |})
      (Zod.both (Zod.both (Zod.both (Zod.both (Zod.both (Zod.both
         (nameSchema (at_ "name") (Draft.name d))
         (ageSchema (at_ "age") (Draft.age d)))
         (phoneSchema (at_ "phone") (Draft.phone d)))
         (websiteSchema (at_ "website") (Draft.website d)))
         (dateOfBirthSchema created (at_ "dateOfBirth") (Draft.dateOfBirth d)))
         (avatarSchema (at_ "avatar") (Draft.avatar d)))
         (additionalPicturesSchema (at_ "additionalPictures")
                                   (Draft.additionalPictures d))).

(** [Math.floor((Date.now() - new Date(dateOfBirth).getTime())
                / (1000 * 60 * 60 * 24 * 365))] *)
Definition calculatedAge (now dateOfBirth : Z) : number :=
  ofZ ((now - dateOfBirth) / (1000 * 60 * 60 * 24 * 365)).

Definition ageMismatch : Zod.IssueData :=
  {| Zod.i_code := Zod.custom;
     Zod.i_message := "Age must match date of birth";
     Zod.i_path := [Zod.Field "age"];
     Zod.i_fatal := false |}.

(** The callback of [superRefine] (lines 49-65).  It receives the output of
    the object schema, whose [age] is a number and whose [dateOfBirth] is a
    date, so the guard of line 52 holds whenever the callback runs. *)
Definition crossFieldCheck (now : Z) (values : FormValues.t)
  : list Zod.IssueData :=
  let age := FormValues.age values in
  let dateOfBirth := FormValues.dateOfBirth values in
  if negb (strictEq age (calculatedAge now dateOfBirth))
  then [ageMismatch]
  else [].

Definition formSchema (created now : Z) : Zod.Schema Draft.t FormValues.t :=
  Zod.superRefine (formObject created) (crossFieldCheck now).

(* ------------------------------------------------------------------ *)
(** ** zodResolver (line 77): one message per field *)

Module Resolver.
Import Zod.

Record FieldError := { message : String.string; type : ZodIssueCode }.

Definition key_eqb (a b : key) : bool :=
  match a, b with
  | Field x, Field y => String.eqb x y
  | Index i, Index j => Nat.eqb i j
  | _, _ => false
  end.

Fixpoint path_eqb (p q : list key) : bool :=
  match p, q with
  | [], [] => true
  | a :: p', b :: q' => key_eqb a b && path_eqb p' q'
  | _, _ => false
  end.

(** What an issue puts at its path: on an issue with union errors, the
    first issue of the first option. *)
Definition entry (e : ZodIssue) : list key * FieldError :=
  match unionErrors e with
  | Some (((c, _, m) :: _) :: _) => (path e, {| message := m; type := c |})
  | _ => (path e, {| message := Zod.message e; type := code e |})
  end.

Definition nested (e : ZodIssue) : list (list key * FieldError) :=
  match unionErrors e with
  | Some options =>
      map (fun '(c, p, m) => (p, {| message := m; type := c |}))
          (List.concat options)
  | None => []
  end.

(** The issues in the order [parseErrorSchema] visits them: the loop takes
    the head of the queue and pushes the union errors of the issue at the
    back. *)
Definition visited (issues : list ZodIssue) : list (list key * FieldError) :=
  map entry issues ++ flat_map nested issues.

Fixpoint firstAt (p : list key) (q : list (list key * FieldError))
  : option FieldError :=
  match q with
  | [] => None
  | (p', e) :: rest => if path_eqb p p' then Some e else firstAt p rest
  end.

(** [errors[path]] after [parseErrorSchema(issues, false)]: an entry is
    written only where none is present yet. *)
Definition parseErrorSchema (issues : list ZodIssue) (p : list key)
  : option FieldError :=
  firstAt p (visited issues).

(** The [errors] of the resolver's result, read at one path; no entry when
    the parse succeeds. *)
Definition errors {I A} (schema : Schema I A) (values : I) (p : list key)
  : option FieldError :=
  match safeParse schema values with
  | inl _ => None
  | inr issues => parseErrorSchema issues p
  end.

End Resolver.

(** [errors.<field>?.message] as the component renders it. *)
Definition errorMessage (created now : Z) (d : Draft.t) (field : string)
  : option string :=
  option_map Resolver.message
    (Resolver.errors (formSchema created now) d [Zod.Field field]).

(** The issues of one validation, empty when it succeeds. *)
Definition issuesOf (created now : Z) (d : Draft.t) : list Zod.ZodIssue :=
  match Zod.safeParse (formSchema created now) d with
  | inl _ => []
  | inr issues => issues
  end.

(* ------------------------------------------------------------------ *)
(** ** The component: state and the two file-input handlers *)

(** What [URL.createObjectURL] returns: a reference into the object-URL
    store of the page. *)
Inductive ObjectURL := blob (id : nat).

Record AppState := {
  fieldValues : Draft.t;                         (* the values held by useForm *)
  avatarPreview : option ObjectURL;              (* useState<string>() *)
  additionalPicturesPreviews : option (list ObjectURL);
  objectURLs : list File                         (* the page's object-URL store *)
}.

Inductive Completion (A : Type) :=
| Normal (a : A)
| TypeError.
Arguments Normal {A} a.
Arguments TypeError {A}.

(** A handler runs on the state and completes normally or throws; what it
    wrote before throwing stays written. *)
Definition M (A : Type) : Type := AppState -> Completion A * AppState.

Definition ret {A} (a : A) : M A := fun st => (Normal a, st).

Definition bind {A B} (m : M A) (k : A -> M B) : M B :=
  fun st =>
    match m st with
    | (Normal a, st') => k a st'
    | (TypeError, st') => (TypeError, st')
    end.

Notation "x <- m ;; k" := (bind m (fun x => k))
  (at level 61, m at next level, right associativity).
Notation "m ;; k" := (bind m (fun _ => k))
  (at level 61, right associativity).

Definition throwTypeError {A} : M A := fun st => (TypeError, st).

(** [field.onChange(v)] of the avatar controller *)
Definition onChange_avatar (v : value) : M unit :=
  fun st =>
    (Normal tt,
     {| fieldValues := Draft.set_avatar v (fieldValues st);
        avatarPreview := avatarPreview st;
        additionalPicturesPreviews := additionalPicturesPreviews st;
        objectURLs := objectURLs st |}).

(** [field.onChange(v)] of the additional-pictures controller *)
Definition onChange_additionalPictures (v : value) : M unit :=
  fun st =>
    (Normal tt,
     {| fieldValues := Draft.set_additionalPictures v (fieldValues st);
        avatarPreview := avatarPreview st;
        additionalPicturesPreviews := additionalPicturesPreviews st;
        objectURLs := objectURLs st |}).

Definition setAvatarPreview (u : option ObjectURL) : M unit :=
  fun st =>
    (Normal tt,
     {| fieldValues := fieldValues st;
        avatarPreview := u;
        additionalPicturesPreviews := additionalPicturesPreviews st;
        objectURLs := objectURLs st |}).

Definition setAdditionalPicturesPreviews (u : option (list ObjectURL)) : M unit :=
  fun st =>
    (Normal tt,
     {| fieldValues := fieldValues st;
        avatarPreview := avatarPreview st;
        additionalPicturesPreviews := u;
        objectURLs := objectURLs st |}).

(** [URL.createObjectURL(f)]: a fresh reference, never released. *)
Definition createObjectURL (f : File) : M ObjectURL :=
  fun st =>
    (Normal (blob (List.length (objectURLs st))),
     {| fieldValues := fieldValues st;
        avatarPreview := avatarPreview st;
        additionalPicturesPreviews := additionalPicturesPreviews st;
        objectURLs := objectURLs st ++ [f] |}).

(** [file.type] where [file] is a [File] or [undefined] *)
Definition typeOf (file : option File) : M string :=
  match file with
  | Some f => ret (type f)
  | None => throwTypeError
  end.

Fixpoint mapM {A B} (f : A -> M B) (l : list A) : M (list B) :=
  match l with
  | [] => ret []
  | x :: rest => y <- f x ;; ys <- mapM f rest ;; ret (y :: ys)
  end.

(** Lines 116-122.  [files] is [e.target.files]: [None] is [null]. *)
Definition avatar_onChange (files : option (list File)) : M unit :=
  match files with
  | None => ret tt
  | Some files =>
      let file := nth_error files 0 in
      onChange_avatar (ofFile file) ;;
      t <- typeOf file ;;
      if negb (startsWith t "image/") then ret tt
      else
        match file with
        | Some f => u <- createObjectURL f ;; setAvatarPreview (Some u)
        | None => setAvatarPreview None
        end
  end.

(** Lines 138-148. *)
Definition additionalPictures_onChange (files : option (list File)) : M unit :=
  match files with
  | None => ret tt
  | Some fileList =>
      let files := fileList in
      onChange_additionalPictures (Arr (map FileObj files)) ;;
      if negb (forallb (fun f => startsWith (type f) "image/") files) then ret tt
      else
        if negb (Nat.eqb (List.length files) 0)
        then us <- mapM createObjectURL files ;;
             setAdditionalPicturesPreviews (Some us)
        else setAdditionalPicturesPreviews None
  end.

(* ------------------------------------------------------------------ *)
(** ** Predicates used by the statements *)

(** An issue, and every issue nested in it, lies at or below [p]. *)
Definition under (p : list Zod.key) (e : Zod.ZodIssue) : Prop :=
  (exists q, Zod.path e = p ++ q) /\
  Forall (fun x => exists q, fst x = p ++ q) (Resolver.nested e).

(** Nothing that [e] contributes to the error map lands on [p]. *)
Definition offPath (p : list Zod.key) (e : Zod.ZodIssue) : Prop :=
  Resolver.path_eqb p (Zod.path e) = false /\
  Forall (fun x => Resolver.path_eqb p (fst x) = false) (Resolver.nested e).

(** The value of a result that is not aborted. *)
Definition valueOf {A} (r : Zod.ParseReturn A) : option A :=
  match r with
  | Zod.INVALID => None
  | Zod.DIRTY v | Zod.OK v => Some v
  end.

Definition isOK {A} (r : Zod.ParseReturn A) : bool :=
  match r with Zod.OK _ => true | _ => false end.

(** A result whose issues lie at or below [p] and that is valid only when
    it raised no issue. *)
Definition good {A} (p : list Zod.key) (r : Zod.ParseReturn A * list Zod.ZodIssue)
  : Prop :=
  Forall (under p) (snd r) /\ (isOK (fst r) = true <-> snd r = []).

(** An image file of at most 50MB. *)
Definition validPicture (f : File) : Prop :=
  isImage f = true /\ (size f <= 50 * 1024 * 1024)%N.

(** The issue that the cross-field check files. *)
Definition ageMismatchIssue : Zod.ZodIssue :=
  Zod.issue Zod.custom [Zod.Field "age"] "Age must match date of birth".

(** What the cross-field check appends to the issues of the object. *)
Definition crossIssues (created now : Z) (d : Draft.t) : list Zod.ZodIssue :=
  match valueOf (fst (formObject created [] d)) with
  | Some v =>
      if strictEq (FormValues.age v)
                  (calculatedAge now (FormValues.dateOfBirth v))
      then [] else [ageMismatchIssue]
  | None => []
  end.

(* ------------------------------------------------------------------ *)
(** ** Sample data *)

Module Sample.

(** 2024-01-01T12:00:00Z and one week later *)
Definition loadedAt : Z := 1704110400000.
Definition aWeekLater : Z := 1704715200000.

(** 2003-06-01T00:00:00Z and 2014-01-05T00:00:00Z *)
Definition born2003 : Z := 1054425600000.
Definition born2014 : Z := 1388880000000.

Definition photo : File :=
  {| fileName := "me.png"; type := "image/png"; size := 204800 |}.
Definition hugePhoto : File :=
  {| fileName := "raw.png"; type := "image/png"; size := 6 * 1024 * 1024 |}.
Definition report : File :=
  {| fileName := "cv.pdf"; type := "application/pdf"; size := 1024 |}.

(** A draft that validates at [loadedAt]. *)
Definition filled : Draft.t :=
  {| Draft.name := Str "Ada";
     Draft.age := Num (ofZ 20);
     Draft.phone := Str EmptyString;
     Draft.website := Str EmptyString;
     Draft.dateOfBirth := DateObj (Some born2003);
     Draft.avatar := FileObj photo;
     Draft.additionalPictures := undefined |}.

(** Age 30 against a birth date twenty years back. *)
Definition wrongAge : Draft.t := Draft.set_age (Num (ofZ 30)) filled.

(** The same with no avatar chosen yet. *)
Definition wrongAgeNoAvatar : Draft.t := Draft.set_avatar undefined wrongAge.

(** Age ten and a half, birth date not entered. *)
Definition halfAge : Draft.t :=
  Draft.set_dateOfBirth undefined (Draft.set_age (Num (Finite (21 # 2))) filled).

(** Age 10, born 2014-01-05. *)
Definition justTen : Draft.t :=
  Draft.set_dateOfBirth (DateObj (Some born2014))
                        (Draft.set_age (Num (ofZ 10)) filled).

Definition initial : AppState :=
  {| fieldValues := filled;
     avatarPreview := Some (blob 0);
     additionalPicturesPreviews := None;
     objectURLs := [photo] |}.

End Sample.

(* ------------------------------------------------------------------ *)
(** ** The binding of the age input (lines 93-95) *)

Definition isDigit (c : ascii) : bool :=
  ((48 <=? nat_of_ascii c) && (nat_of_ascii c <=? 57))%nat.

Definition digitValue (c : ascii) : Z := (Z.of_nat (nat_of_ascii c) - 48)%Z.

(** The white space that [parseInt] skips, below 256. *)
Fixpoint trimStart (s : string) : string :=
  match s with
  | EmptyString => EmptyString
  | String c r => if Regex.isSpace c then trimStart r else s
  end.

(** The value of the longest prefix of decimal digits, [None] when the
    string does not start with a digit. *)
Fixpoint leadingDigits (acc : option Z) (s : string) : option Z :=
  match s with
  | EmptyString => acc
  | String c r =>
      if isDigit c
      then leadingDigits
             (Some (10 * match acc with Some n => n | None => 0 end
                    + digitValue c)%Z) r
      else acc
  end.

(** The Number value of the integer [m >= 0] with the given sign: exact
    below 2^53, beyond that rounded to 53 significant bits, ties to even,
    and infinite from 2^1024 on. *)
Definition roundInteger (negative : bool) (m : Z) : number :=
  let e := (Z.log2 m - 52)%Z in
  if (e <=? 0)%Z then ofZ (if negative then (- m)%Z else m)
  else
    let q := Z.shiftr m e in
    let r := (m - Z.shiftl q e)%Z in
    let half := Z.shiftl 1 (e - 1) in
    let q' := if (half <? r)%Z || ((r =? half)%Z && Z.odd q)
              then (q + 1)%Z else q in
    let v := Z.shiftl q' e in
    if (Z.shiftl 1 1024 <=? v)%Z then Infinity negative
    else ofZ (if negative then (- v)%Z else v).

(** [parseInt(s, 10)]: white space, an optional sign, then digits up to the
    first character that is no digit; NaN when there is no digit, else the
    Number value of the integer that the digits spell. *)
Definition parseInt (s : string) : number :=
  let s1 := trimStart s in
  let '(negative, s2) :=
    match s1 with
    | String "-"%char r => (true, r)
    | String "+"%char r => (false, r)
    | _ => (false, s1)
    end in
  match leadingDigits None s2 with
  | None => NaN
  | Some n => roundInteger negative n
  end.

(** [setValueAs: (v) => (v === '' ? undefined : parseInt(v, 10))] *)
Definition age_setValueAs (v : string) : value :=
  if String.eqb v EmptyString then undefined else Num (parseInt v).

(* ------------------------------------------------------------------ *)
(** ** Further predicates *)

(** The language of a pattern. *)
Inductive Matches : Regex.t -> string -> Prop :=
| MEps : Matches Regex.Eps EmptyString
| MClass p c : p c = true -> Matches (Regex.Class p) (String c EmptyString)
| MSeq a b s t : Matches a s -> Matches b t -> Matches (Regex.Seq a b) (s ++ t)
| MAltL a b s : Matches a s -> Matches (Regex.Alt a b) s
| MAltR a b s : Matches b s -> Matches (Regex.Alt a b) s
| MStar0 a : Matches (Regex.Star a) EmptyString
| MStarS a s t :
    Matches a s -> Matches (Regex.Star a) t -> Matches (Regex.Star a) (s ++ t).

Fixpoint allChars (P : ascii -> bool) (s : string) : bool :=
  match s with
  | EmptyString => true
  | String c r => P c && allChars P r
  end.

Fixpoint lastChar (s : string) : option ascii :=
  match s with
  | EmptyString => None
  | String c EmptyString => Some c
  | String _ r => lastChar r
  end.

(** Every character class of [r] lies within [P]. *)
Fixpoint classesWithin (P : ascii -> bool) (r : Regex.t) : Prop :=
  match r with
  | Regex.Void | Regex.Eps => True
  | Regex.Class p => forall c, p c = true -> P c = true
  | Regex.Seq a b | Regex.Alt a b => classesWithin P a /\ classesWithin P b
  | Regex.Star a => classesWithin P a
  end.

(** The characters a phone number may hold: digits, white space, [+], [-],
    [(] and [)]. *)
Definition phoneChar (c : ascii) : bool :=
  isDigit c || Regex.isSpace c
  || Ascii.eqb c "+" || Ascii.eqb c "-" || Ascii.eqb c "(" || Ascii.eqb c ")".

(** The rules of the seven keys, read off lines 12-47. *)
Definition nameOK (v : value) : Prop :=
  exists s, v = Str s /\ s <> EmptyString.

Definition ageOK (v : value) : Prop :=
  exists n, v = Num n /\ n <> NaN /\ lt n (ofZ 10) = false.

Definition phoneOK (v : value) : Prop :=
  v = undefined \/
  exists s, v = Str s /\ (s = EmptyString \/ Regex.test phoneRegex s = true).

Definition websiteOK (v : value) : Prop :=
  v = undefined \/
  exists s, v = Str s /\
            (s = EmptyString \/
             ((5 <= String.length (toLowerCase s))%nat /\
              indexOf (toLowerCase s) "." <> (-1)%Z)).

Definition dateOfBirthOK (created : Z) (v : value) : Prop :=
  exists t, v = DateObj (Some t) /\
            (t <= created - 10 * 365 * 24 * 60 * 60 * 1000)%Z.

Definition avatarOK (v : value) : Prop :=
  exists f, v = FileObj f /\ isImage f = true /\ (size f <= 5 * 1024 * 1024)%N.

Definition additionalPicturesOK (v : value) : Prop :=
  v = undefined \/
  exists l, v = Arr (map FileObj l) /\ (List.length l <= 5)%nat /\
            Forall validPicture l.

(** The drafts that the schema lets through. *)
Definition acceptable (created now : Z) (d : Draft.t) : Prop :=
  nameOK (Draft.name d) /\ ageOK (Draft.age d) /\ phoneOK (Draft.phone d) /\
  websiteOK (Draft.website d) /\ dateOfBirthOK created (Draft.dateOfBirth d) /\
  avatarOK (Draft.avatar d) /\
  additionalPicturesOK (Draft.additionalPictures d) /\
  exists a t, Draft.age d = Num a /\ Draft.dateOfBirth d = DateObj (Some t) /\
              strictEq a (calculatedAge now t) = true.

(** Every preview that the component renders refers to an entry of the
    object-URL store. *)
Definition previewsResolve (st : AppState) : Prop :=
  (forall i, avatarPreview st = Some (blob i) ->
             (i < List.length (objectURLs st))%nat) /\
  (forall l i, additionalPicturesPreviews st = Some l -> In (blob i) l ->
               (i < List.length (objectURLs st))%nat).

(** The file behind an object URL. *)
Definition resolve (st : AppState) (u : ObjectURL) : option File :=
  match u with blob i => nth_error (objectURLs st) i end.

(* ------------------------------------------------------------------ *)
(** ** Where issues are put *)

Section Paths.
Import Zod Resolver.

Lemma entry_path e : fst (entry e) = path e.
Proof.
  unfold entry. destruct (unionErrors e) as [[|[|[[c q] m] l] o]|]; reflexivity.
Qed.

Lemma under_issue p q c m : under p (issue c (p ++ q) m).
Proof. split; [now exists q | constructor]. Qed.

Lemma under_issue_here p c m : under p (issue c p m).
Proof. split; [exists []; now rewrite app_nil_r | constructor]. Qed.

Lemma under_weaken p q e : under (p ++ q) e -> under p e.
Proof.
  intros [[r Hr] Hn]. split.
  - exists (q ++ r). now rewrite app_assoc.
  - eapply Forall_impl; [|exact Hn]. intros x [s Hs].
    exists (q ++ s). now rewrite app_assoc.
Qed.

Lemma path_eqb_root j k q :
  j <> k -> path_eqb [Field j] ([Field k] ++ q) = false.
Proof.
  intros H. simpl. apply String.eqb_neq in H. now rewrite H.
Qed.

Lemma under_offPath j k e : j <> k -> under [Field k] e -> offPath [Field j] e.
Proof.
  intros H [[q Hq] Hn]. split.
  - rewrite Hq. now apply path_eqb_root.
  - eapply Forall_impl; [|exact Hn]. intros x [r Hr]. rewrite Hr.
    now apply path_eqb_root.
Qed.

Lemma firstAt_app p x y :
  firstAt p (x ++ y) =
  match firstAt p x with Some e => Some e | None => firstAt p y end.
Proof.
  induction x as [|[q e] x IH]; simpl; [reflexivity|].
  destruct (path_eqb p q); [reflexivity | exact IH].
Qed.

Lemma firstAt_off p x :
  Forall (fun e => path_eqb p (fst e) = false) x -> firstAt p x = None.
Proof.
  induction 1 as [|[q e] x H _ IH]; simpl; [reflexivity|].
  simpl in H. now rewrite H.
Qed.

Lemma offPath_entries p l :
  Forall (offPath p) l ->
  Forall (fun e => path_eqb p (fst e) = false) (map entry l).
Proof.
  induction 1 as [|e l [H _] _ IH]; simpl; constructor; [|exact IH].
  now rewrite entry_path.
Qed.

Lemma offPath_nested p l :
  Forall (offPath p) l ->
  Forall (fun e => path_eqb p (fst e) = false) (flat_map nested l).
Proof.
  induction 1 as [|e l [_ H] _ IH]; simpl; [constructor|].
  apply Forall_app. now split.
Qed.

Lemma visited_off p l : Forall (offPath p) l -> firstAt p (visited l) = None.
Proof.
  intros H. unfold visited. rewrite firstAt_app.
  rewrite (firstAt_off _ _ (offPath_entries _ _ H)).
  apply firstAt_off, offPath_nested, H.
Qed.

(** Only the issues of the block that lies on [p] decide the entry at [p]. *)
Lemma visited_select p A B C :
  Forall (offPath p) A -> Forall (offPath p) C ->
  firstAt p (visited (A ++ B ++ C)) = firstAt p (visited B).
Proof.
  intros HA HC. unfold visited.
  rewrite !map_app, !flat_map_app, !firstAt_app.
  rewrite (firstAt_off _ _ (offPath_entries _ _ HA)).
  rewrite (firstAt_off _ _ (offPath_entries _ _ HC)).
  rewrite (firstAt_off _ _ (offPath_nested _ _ HA)).
  rewrite (firstAt_off _ _ (offPath_nested _ _ HC)).
  destruct (firstAt p (map entry B)); [reflexivity|].
  now destruct (firstAt p (flat_map nested B)).
Qed.

End Paths.

(* ------------------------------------------------------------------ *)
(** ** Every schema of the form is well behaved *)

Section Good.
Import Zod Resolver.

Lemma good_invalid {A} p (e : ZodIssue) :
  under p e -> good p (@INVALID A, [e]).
Proof.
  intros H. split; [now constructor|]. simpl. split; discriminate.
Qed.

Lemma stringChecks_good p checks s :
  let '(d, _, iss) := stringChecks p checks s in
  Forall (under p) iss /\ (d = false <-> iss = []).
Proof.
  revert s. induction checks as [|c rest IH]; intros s; simpl.
  - split; [constructor | tauto].
  - destruct c as [n msg|r msg|]; simpl.
    + destruct (String.length s <? n)%nat.
      * specialize (IH s). destruct (stringChecks p rest s) as [[d o] l].
        simpl. destruct IH as [IH _]. split.
        -- constructor; [apply under_issue_here | exact IH].
        -- split; discriminate.
      * specialize (IH s). destruct (stringChecks p rest s) as [[d o] l].
        exact IH.
    + destruct (Regex.test r s).
      * specialize (IH s). destruct (stringChecks p rest s) as [[d o] l].
        exact IH.
      * specialize (IH s). destruct (stringChecks p rest s) as [[d o] l].
        simpl. destruct IH as [IH _]. split.
        -- constructor; [apply under_issue_here | exact IH].
        -- split; discriminate.
    + specialize (IH (toLowerCase s)).
      destruct (stringChecks p rest (toLowerCase s)) as [[d o] l].
      exact IH.
Qed.

Lemma good_withStatus {A} p d (v : A) iss :
  Forall (under p) iss -> (d = false <-> iss = []) ->
  good p (withStatus d v, iss).
Proof.
  intros H [H1 H2]. split; [exact H|]. simpl.
  destruct d; simpl; split; intros E; try discriminate; auto.
  specialize (H2 E). discriminate.
Qed.

Lemma good_string checks p v : good p (Zod.string checks p v).
Proof.
  unfold Zod.string, invalidType.
  destruct v; try (apply good_invalid, under_issue_here).
  pose proof (stringChecks_good p checks s) as H.
  destruct (stringChecks p checks s) as [[d o] l]. destruct H.
  now apply good_withStatus.
Qed.

Lemma numberChecks_good p checks n :
  let '(d, iss) := numberChecks p checks n in
  Forall (under p) iss /\ (d = false <-> iss = []).
Proof.
  induction checks as [|[v msg] rest IH]; simpl.
  - split; [constructor | tauto].
  - destruct (numberChecks p rest n) as [d l]. destruct IH as [IH1 IH2].
    destruct (lt n v); [|now split]. split.
    + constructor; [apply under_issue_here | exact IH1].
    + split; discriminate.
Qed.

Lemma good_number checks p v : good p (Zod.number checks p v).
Proof.
  unfold Zod.number, invalidType.
  destruct v as [| | |n| | | | |]; try (apply good_invalid, under_issue_here).
  pose proof (numberChecks_good p checks n) as H.
  destruct n; try (apply good_invalid, under_issue_here);
    destruct (numberChecks p checks _) as [d l]; destruct H;
    now apply good_withStatus.
Qed.

Lemma dateChecks_good p checks t :
  let '(d, iss) := dateChecks p checks t in
  Forall (under p) iss /\ (d = false <-> iss = []).
Proof.
  induction checks as [|[v msg] rest IH]; simpl.
  - split; [constructor | tauto].
  - destruct (dateChecks p rest t) as [d l]. destruct IH as [IH1 IH2].
    destruct v as [b|]; [|now split].
    destruct (t >? b)%Z; [|now split]. split.
    + constructor; [apply under_issue_here | exact IH1].
    + split; discriminate.
Qed.

Lemma good_date checks p v : good p (Zod.date checks p v).
Proof.
  unfold Zod.date, invalidType.
  destruct v as [| | | | |d| | |]; try (apply good_invalid, under_issue_here).
  destruct d as [t|]; simpl; [|apply good_invalid, under_issue_here].
  pose proof (dateChecks_good p checks t) as H.
  destruct (dateChecks p checks t) as [d l]. destruct H.
  now apply good_withStatus.
Qed.

Lemma good_instanceofFile msg p v : good p (instanceofFile msg p v).
Proof.
  unfold instanceofFile.
  destruct v; try (apply good_invalid, under_issue_here).
  split; [constructor | simpl; tauto].
Qed.

Lemma good_literal x p v : good p (literal x p v).
Proof.
  unfold literal.
  destruct v; try (apply good_invalid, under_issue_here).
  destruct (String.eqb s x); [|apply good_invalid, under_issue_here].
  split; [constructor | simpl; tauto].
Qed.

Lemma good_refine {A} (inner : Schema value A) check msg p v :
  good p (inner p v) -> good p (refine inner check msg p v).
Proof.
  unfold refine, superRefine. intros [H1 H2].
  destruct (inner p v) as [r iss]. simpl in *.
  destruct r as [|a|a]; simpl in *.
  - now split.
  - destruct (check a); simpl; rewrite ?app_nil_r.
    + now split.
    + split.
      * apply Forall_app. split; [exact H1|].
        constructor; [|constructor]. apply under_issue_here.
      * simpl. split; [discriminate|]. intros E.
        destruct iss; discriminate.
  - destruct (check a); simpl; rewrite ?app_nil_r.
    + now split.
    + split.
      * apply Forall_app. split; [exact H1|].
        constructor; [|constructor]. apply under_issue_here.
      * simpl. split; [discriminate|]. intros E.
        destruct iss; discriminate.
Qed.

Lemma good_optional {A} (inner : Schema value A) p v :
  good p (inner p v) -> good p (optional inner p v).
Proof.
  unfold optional. intros [H1 H2].
  destruct v; try (split; [constructor | simpl; tauto]);
    destruct (inner p _) as [r iss]; destruct r; now split.
Qed.

Lemma plain_under p l :
  Forall (under p) l ->
  Forall (fun x : ZodIssueCode * list key * String.string =>
            exists q, snd (fst x) = p ++ q) (map plain l).
Proof.
  induction 1 as [|e l [H _] _ IH]; simpl; constructor; auto.
Qed.

Lemma good_or {A B} (a : Schema value A) (b : Schema value B) p v :
  good p (a p v) -> good p (b p v) -> good p (Zod.or a b p v).
Proof.
  unfold Zod.or. intros [A1 A2] [B1 B2].
  destruct (a p v) as [ra ia], (b p v) as [rb ib]. simpl in *.
  destruct ra as [|x|x], rb as [|y|y]; simpl in *;
    try (split; [constructor | simpl; tauto]);
    try (split; [assumption|]; simpl; split; [discriminate|];
         intros E; first [apply A2 in E | apply B2 in E]; exact E).
  split; [|simpl; split; discriminate].
  constructor; [|constructor]. split.
  - exists []. simpl. now rewrite app_nil_r.
  - unfold nested. cbn [unionErrors]. apply Forall_map.
    apply Forall_concat. apply Forall_forall. intros l Hl.
    assert (Hp : Forall (fun x : ZodIssueCode * list key * String.string =>
                           exists q, snd (fst x) = p ++ q) l).
    { destruct (negb (Nat.eqb (List.length (map plain ia)) 0)),
               (negb (Nat.eqb (List.length (map plain ib)) 0));
        simpl in Hl; intuition (subst; now apply plain_under). }
    eapply Forall_impl; [|exact Hp]. now intros [[c q] m].
Qed.

End Good.

Section GoodFields.
Import Zod Resolver.

Lemma good_elements {A} (element : Schema value A) p l :
  (forall q x, good q (element q x)) ->
  forall i, good p (elements element p i l).
Proof.
  intros He. induction l as [|x l IH]; intros i; simpl.
  - split; [constructor | simpl; tauto].
  - destruct (He (p ++ [Index i]) x) as [H1 H2].
    destruct (IH (S i)) as [I1 I2].
    destruct (element (p ++ [Index i]) x) as [r here].
    destruct (elements element p (S i) l) as [rs later]. simpl in *.
    split.
    + apply Forall_app. split; [|exact I1].
      eapply Forall_impl; [|exact H1]. intros e. apply under_weaken.
    + destruct r, rs; simpl in *; split; intros E; try discriminate;
        try (apply app_eq_nil in E; destruct E as [E1 E2];
             first [apply H2 in E1; discriminate
                   | apply I2 in E2; discriminate | reflexivity]).
      apply proj1 in H2. apply proj1 in I2.
      now rewrite H2, I2.
Qed.

Lemma good_array {A} (element : Schema value A) maxLength p v :
  (forall q x, good q (element q x)) ->
  good p (array element maxLength p v).
Proof.
  intros He. unfold array, invalidType.
  destruct v as [| | | | | | |l|]; try (apply good_invalid, under_issue_here).
  destruct (good_elements element p l He 0) as [H1 H2].
  destruct (elements element p 0 l) as [r iss]. simpl in *.
  destruct maxLength as [[n msg]|].
  - destruct (n <? List.length l)%nat; simpl.
    + split.
      * constructor; [apply under_issue_here | exact H1].
      * destruct r; simpl; split; discriminate.
    + split; [exact H1|]. destruct r; simpl in *; exact H2.
  - simpl. split; [exact H1|]. destruct r; simpl in *; exact H2.
Qed.

Lemma good_name p v : good p (nameSchema p v).
Proof. apply good_string. Qed.

Lemma good_age p v : good p (ageSchema p v).
Proof. apply good_number. Qed.

Lemma good_phone p v : good p (phoneSchema p v).
Proof.
  apply good_or; [apply good_optional, good_string | apply good_literal].
Qed.

Lemma good_website p v : good p (websiteSchema p v).
Proof.
  apply good_or; [|apply good_literal].
  apply good_optional, good_refine, good_string.
Qed.

Lemma good_dateOfBirth created p v : good p (dateOfBirthSchema created p v).
Proof. apply good_date. Qed.

Lemma good_avatar p v : good p (avatarSchema p v).
Proof. apply good_refine, good_refine, good_instanceofFile. Qed.

Lemma good_picture p v : good p (pictureSchema p v).
Proof. apply good_refine, good_refine, good_instanceofFile. Qed.

Lemma good_additionalPictures p v : good p (additionalPicturesSchema p v).
Proof. apply good_optional, good_array. intros. apply good_picture. Qed.

End GoodFields.

(* ------------------------------------------------------------------ *)
(** ** The issues of one validation *)

Section Issues.
Import Zod Resolver.

Lemma valueOf_both {A B} (ra : ParseReturn A * list ZodIssue)
      (rb : ParseReturn B * list ZodIssue) :
  valueOf (fst (both ra rb)) =
  match valueOf (fst ra), valueOf (fst rb) with
  | Some a, Some b => Some (a, b)
  | _, _ => None
  end.
Proof. destruct ra as [[] ?], rb as [[] ?]; reflexivity. Qed.

Lemma isOK_both {A B} (ra : ParseReturn A * list ZodIssue)
      (rb : ParseReturn B * list ZodIssue) :
  isOK (fst (both ra rb)) = isOK (fst ra) && isOK (fst rb).
Proof. destruct ra as [[] ?], rb as [[] ?]; reflexivity. Qed.

Lemma valueOf_mapResult {A B} (f : A -> B) r :
  valueOf (fst (mapResult f r)) = option_map f (valueOf (fst r)).
Proof. destruct r as [[] ?]; reflexivity. Qed.

Lemma isOK_mapResult {A B} (f : A -> B) r :
  isOK (fst (mapResult f r)) = isOK (fst r).
Proof. destruct r as [[] ?]; reflexivity. Qed.

Variable created : Z.
Variable d : Draft.t.

(** The issues of the object are those of its keys, in the order of the
    shape. *)
Lemma formObject_issues :
  snd (formObject created [] d) =
  snd (nameSchema [Field "name"] (Draft.name d))
  ++ snd (ageSchema [Field "age"] (Draft.age d))
  ++ snd (phoneSchema [Field "phone"] (Draft.phone d))
  ++ snd (websiteSchema [Field "website"] (Draft.website d))
  ++ snd (dateOfBirthSchema created [Field "dateOfBirth"] (Draft.dateOfBirth d))
  ++ snd (avatarSchema [Field "avatar"] (Draft.avatar d))
  ++ snd (additionalPicturesSchema [Field "additionalPictures"]
                                   (Draft.additionalPictures d)).
Proof.
  unfold formObject, mapResult, both. cbn [fst snd app].
  now rewrite <- !app_assoc.
Qed.

(** The object is not aborted exactly when none of its keys is, and its
    value then holds the values of the keys. *)
Lemma formObject_value v :
  valueOf (fst (formObject created [] d)) = Some v ->
  valueOf (fst (nameSchema [Field "name"] (Draft.name d)))
  = Some (FormValues.name v) /\
  valueOf (fst (ageSchema [Field "age"] (Draft.age d)))
  = Some (FormValues.age v) /\
  valueOf (fst (dateOfBirthSchema created [Field "dateOfBirth"]
                                  (Draft.dateOfBirth d)))
  = Some (FormValues.dateOfBirth v) /\
  valueOf (fst (avatarSchema [Field "avatar"] (Draft.avatar d)))
  = Some (FormValues.avatar v).
Proof.
  unfold formObject. rewrite valueOf_mapResult, !valueOf_both.
  cbn [app].
  destruct (valueOf (fst (nameSchema _ _))) as [n|]; [|discriminate].
  destruct (valueOf (fst (ageSchema _ _))) as [a|]; [|discriminate].
  destruct (valueOf (fst (phoneSchema _ _))) as [ph|]; [|discriminate].
  destruct (valueOf (fst (websiteSchema _ _))) as [w|]; [|discriminate].
  destruct (valueOf (fst (dateOfBirthSchema _ _ _))) as [t|]; [|discriminate].
  destruct (valueOf (fst (avatarSchema _ _))) as [av|]; [|discriminate].
  destruct (valueOf (fst (additionalPicturesSchema _ _))) as [ap|];
    [|discriminate].
  simpl. intros E. injection E as <-. simpl. auto.
Qed.

Lemma formObject_aborted_iff :
  valueOf (fst (formObject created [] d)) = None <->
  (valueOf (fst (nameSchema [Field "name"] (Draft.name d))) = None
   \/ valueOf (fst (ageSchema [Field "age"] (Draft.age d))) = None
   \/ valueOf (fst (phoneSchema [Field "phone"] (Draft.phone d))) = None
   \/ valueOf (fst (websiteSchema [Field "website"] (Draft.website d))) = None
   \/ valueOf (fst (dateOfBirthSchema created [Field "dateOfBirth"]
                                      (Draft.dateOfBirth d))) = None
   \/ valueOf (fst (avatarSchema [Field "avatar"] (Draft.avatar d))) = None
   \/ valueOf (fst (additionalPicturesSchema [Field "additionalPictures"]
                      (Draft.additionalPictures d))) = None).
Proof.
  unfold formObject. rewrite valueOf_mapResult, !valueOf_both.
  cbn [app].
  destruct (valueOf (fst (nameSchema _ _))) as [n|];
  destruct (valueOf (fst (ageSchema _ _))) as [a|];
  destruct (valueOf (fst (phoneSchema _ _))) as [ph|];
  destruct (valueOf (fst (websiteSchema _ _))) as [w|];
  destruct (valueOf (fst (dateOfBirthSchema _ _ _))) as [t|];
  destruct (valueOf (fst (avatarSchema _ _))) as [av|];
  destruct (valueOf (fst (additionalPicturesSchema _ _))) as [ap|];
  simpl; split; intros H; try discriminate; try tauto;
  repeat (destruct H as [H|H]; try discriminate).
Qed.

Lemma formObject_ok :
  isOK (fst (formObject created [] d)) = true ->
  snd (formObject created [] d) = [].
Proof.
  rewrite formObject_issues. unfold formObject.
  rewrite isOK_mapResult, !isOK_both, !andb_true_iff. cbn [app].
  intros [[[[[[Hn Ha] Hp] Hw] Hd] Hv] Hx].
  apply (proj2 (good_name _ _)) in Hn.
  apply (proj2 (good_age _ _)) in Ha.
  apply (proj2 (good_phone _ _)) in Hp.
  apply (proj2 (good_website _ _)) in Hw.
  apply (proj2 (good_dateOfBirth _ _ _)) in Hd.
  apply (proj2 (good_avatar _ _)) in Hv.
  apply (proj2 (good_additionalPictures _ _)) in Hx.
  now rewrite Hn, Ha, Hp, Hw, Hd, Hv, Hx.
Qed.

Variable now : Z.

(** The refined schema adds the issues of the cross-field check, and adds
    them only on an object that is not aborted. *)
Lemma formSchema_issues :
  snd (formSchema created now [] d) =
  snd (formObject created [] d) ++ crossIssues created now d.
Proof.
  unfold formSchema, superRefine, crossIssues, crossFieldCheck.
  destruct (formObject created [] d) as [[|v|v] iss]; simpl;
    rewrite ?app_nil_r; try reflexivity;
    destruct (strictEq _ _); simpl; now rewrite ?app_nil_r.
Qed.

Lemma formSchema_ok :
  isOK (fst (formSchema created now [] d)) = true ->
  snd (formSchema created now [] d) = [].
Proof.
  rewrite formSchema_issues.
  pose proof formObject_ok as H. revert H.
  unfold formSchema, superRefine, crossIssues, crossFieldCheck.
  destruct (formObject created [] d) as [[|v|v] iss]; simpl;
    try discriminate;
    destruct (strictEq _ _); simpl; try discriminate.
  intros H _. now rewrite H.
Qed.

Lemma issuesOf_eq : issuesOf created now d = snd (formSchema created now [] d).
Proof.
  unfold issuesOf, safeParse. pose proof formSchema_ok as H.
  destruct (formSchema created now [] d) as [[|v|v] iss]; simpl in *;
    try reflexivity.
  symmetry. now apply H.
Qed.

Lemma errorMessage_eq k :
  errorMessage created now d k =
  option_map message
    (firstAt [Field k] (visited (snd (formSchema created now [] d)))).
Proof.
  unfold errorMessage, errors, parseErrorSchema, safeParse.
  pose proof formSchema_ok as H.
  destruct (formSchema created now [] d) as [[|v|v] iss]; simpl in *;
    try reflexivity.
  now rewrite H.
Qed.

End Issues.

(* ------------------------------------------------------------------ *)
(** ** The message shown under each input *)

Section Messages.
Import Zod Resolver.
Variables created now : Z.
Variable d : Draft.t.

Lemma block_off {A} j k (r : ParseReturn A * list ZodIssue) :
  good [Field j] r -> k <> j -> Forall (offPath [Field k]) (snd r).
Proof.
  intros [H _] Hk. eapply Forall_impl; [|exact H].
  intros e. now apply under_offPath.
Qed.

Lemma crossIssues_under :
  Forall (under [Field "age"]) (crossIssues created now d).
Proof.
  unfold crossIssues.
  destruct (valueOf _) as [v|]; [|constructor].
  destruct (strictEq _ _); constructor; [|constructor].
  apply under_issue_here.
Qed.

Lemma crossIssues_off k :
  k <> "age" -> Forall (offPath [Field k]) (crossIssues created now d).
Proof.
  intros Hk. eapply Forall_impl; [|exact crossIssues_under].
  intros e. now apply under_offPath.
Qed.

Ltac off :=
  repeat (apply Forall_app; split);
  first [ now constructor
        | apply crossIssues_off; discriminate
        | eapply block_off;
          [ first [ apply good_name | apply good_age | apply good_phone
                  | apply good_website | apply good_dateOfBirth
                  | apply good_avatar | apply good_additionalPictures ]
          | discriminate ] ].

Lemma errorMessage_select k A B C :
  snd (formSchema created now [] d) = A ++ B ++ C ->
  Forall (offPath [Field k]) A -> Forall (offPath [Field k]) C ->
  errorMessage created now d k =
  option_map message (firstAt [Field k] (visited B)).
Proof.
  intros E HA HC. rewrite errorMessage_eq, E.
  now rewrite visited_select.
Qed.

Lemma errorMessage_name :
  errorMessage created now d "name" =
  option_map message
    (firstAt [Field "name"]
             (visited (snd (nameSchema [Field "name"] (Draft.name d))))).
Proof.
  eapply (errorMessage_select _ []).
  - rewrite formSchema_issues, formObject_issues. cbn [app].
    rewrite <- app_assoc. reflexivity.
  - constructor.
  - off.
Qed.

Lemma errorMessage_age :
  errorMessage created now d "age" =
  option_map message
    (firstAt [Field "age"]
             (visited (snd (ageSchema [Field "age"] (Draft.age d))
                       ++ crossIssues created now d))).
Proof.
  rewrite errorMessage_eq, formSchema_issues, formObject_issues.
  set (n := snd (nameSchema _ _)). set (a := snd (ageSchema _ _)).
  set (rest := snd (phoneSchema _ _) ++ _).
  set (x := crossIssues _ _ _).
  assert (Hn : Forall (offPath [Field "age"]) n) by (subst n; off).
  assert (Hr : Forall (offPath [Field "age"]) rest) by (subst rest; off).
  unfold visited.
  rewrite !map_app, !flat_map_app, !firstAt_app.
  rewrite (firstAt_off _ _ (offPath_entries _ _ Hn)).
  rewrite (firstAt_off _ _ (offPath_entries _ _ Hr)).
  rewrite (firstAt_off _ _ (offPath_nested _ _ Hn)).
  rewrite (firstAt_off _ _ (offPath_nested _ _ Hr)).
  destruct (firstAt _ (map entry a)); [reflexivity|].
  destruct (firstAt _ (map entry x)); [reflexivity|].
  destruct (firstAt _ (flat_map nested a)); reflexivity.
Qed.

Lemma errorMessage_website :
  errorMessage created now d "website" =
  option_map message
    (firstAt [Field "website"]
             (visited (snd (websiteSchema [Field "website"] (Draft.website d))))).
Proof.
  eapply (errorMessage_select _
            (snd (nameSchema _ _) ++ snd (ageSchema _ _) ++ snd (phoneSchema _ _))).
  - rewrite formSchema_issues, formObject_issues.
    rewrite <- !app_assoc. reflexivity.
  - off.
  - off.
Qed.

Lemma errorMessage_dateOfBirth :
  errorMessage created now d "dateOfBirth" =
  option_map message
    (firstAt [Field "dateOfBirth"]
             (visited (snd (dateOfBirthSchema created [Field "dateOfBirth"]
                                              (Draft.dateOfBirth d))))).
Proof.
  eapply (errorMessage_select _
            (snd (nameSchema _ _) ++ snd (ageSchema _ _)
             ++ snd (phoneSchema _ _) ++ snd (websiteSchema _ _))).
  - rewrite formSchema_issues, formObject_issues.
    rewrite <- !app_assoc. reflexivity.
  - off.
  - off.
Qed.

Lemma errorMessage_avatar :
  errorMessage created now d "avatar" =
  option_map message
    (firstAt [Field "avatar"]
             (visited (snd (avatarSchema [Field "avatar"] (Draft.avatar d))))).
Proof.
  eapply (errorMessage_select _
            (snd (nameSchema _ _) ++ snd (ageSchema _ _)
             ++ snd (phoneSchema _ _) ++ snd (websiteSchema _ _)
             ++ snd (dateOfBirthSchema _ _ _))).
  - rewrite formSchema_issues, formObject_issues.
    rewrite <- !app_assoc. reflexivity.
  - off.
  - off.
Qed.

Lemma errorMessage_additionalPictures :
  errorMessage created now d "additionalPictures" =
  option_map message
    (firstAt [Field "additionalPictures"]
             (visited (snd (additionalPicturesSchema
                              [Field "additionalPictures"]
                              (Draft.additionalPictures d))))).
Proof.
  eapply (errorMessage_select _
            (snd (nameSchema _ _) ++ snd (ageSchema _ _)
             ++ snd (phoneSchema _ _) ++ snd (websiteSchema _ _)
             ++ snd (dateOfBirthSchema _ _ _) ++ snd (avatarSchema _ _))).
  - rewrite formSchema_issues, formObject_issues.
    rewrite <- !app_assoc. reflexivity.
  - off.
  - off.
Qed.

End Messages.

(* ------------------------------------------------------------------ *)
(** ** The cross-field check (lines 49-66) *)

Section CrossField.
Import Zod Resolver.

Lemma ageSchema_value p a x :
  valueOf (fst (ageSchema p (Num a))) = Some x ->
  x = a /\ a <> NaN /\
  (lt a (ofZ 10) = false -> snd (ageSchema p (Num a)) = []).
Proof.
  unfold ageSchema, Zod.number, numberChecks.
  destruct a as [|s|q]; [discriminate| |];
    destruct (lt _ (ofZ 10)); simpl; intros E; injection E as <-;
    repeat split; try discriminate; auto.
Qed.

Lemma dateOfBirthSchema_value created p t x :
  valueOf (fst (dateOfBirthSchema created p (DateObj (Some t)))) = Some x ->
  x = t.
Proof.
  unfold dateOfBirthSchema, Zod.date, dateChecks, getTime.
  destruct (newDate _) as [b|]; [destruct (t >? b)%Z|];
    simpl; intros E; now injection E.
Qed.

Lemma crossIssues_eq created now d a t :
  Draft.age d = Num a -> Draft.dateOfBirth d = DateObj (Some t) ->
  valueOf (fst (formObject created [] d)) <> None ->
  a <> NaN /\
  (lt a (ofZ 10) = false -> snd (ageSchema [Field "age"] (Draft.age d)) = []) /\
  crossIssues created now d =
  if strictEq a (calculatedAge now t) then [] else [ageMismatchIssue].
Proof.
  intros Ha Ht Hv. unfold crossIssues.
  destruct (valueOf (fst (formObject created [] d))) as [v|] eqn:E;
    [|contradiction].
  destruct (formObject_value _ _ _ E) as (_ & Hage & Hdob & _).
  rewrite Ha in Hage. rewrite Ht in Hdob.
  apply ageSchema_value in Hage. destruct Hage as (-> & Hnan & Hno).
  apply dateOfBirthSchema_value in Hdob. rewrite Hdob, Ha. auto.
Qed.

(** On an object that some key aborts the callback does not run. *)
Lemma crossField_skipped_on_abort created now d :
  valueOf (fst (formObject created [] d)) = None ->
  snd (formSchema created now [] d) = snd (formObject created [] d).
Proof.
  intros H. rewrite formSchema_issues. unfold crossIssues.
  rewrite H. apply app_nil_r.
Qed.

End CrossField.

(** C1, as stated, fails: with age 30, a birth date twenty years back and no
    avatar chosen, both fields are set and the age differs from the floor
    of the years, yet the only issue is the one of the avatar; nothing is
    attached to the age field. *)
Lemma crossField_skipped_when_avatar_missing :
  Draft.age Sample.wrongAgeNoAvatar = Num (ofZ 30) /\
  Draft.dateOfBirth Sample.wrongAgeNoAvatar = DateObj (Some Sample.born2003) /\
  calculatedAge Sample.loadedAt Sample.born2003 = ofZ 20 /\
  strictEq (ofZ 30) (calculatedAge Sample.loadedAt Sample.born2003) = false /\
  issuesOf Sample.loadedAt Sample.loadedAt Sample.wrongAgeNoAvatar
  = [Zod.issue Zod.custom [Zod.Field "avatar"] "Required"] /\
  ~ In ageMismatchIssue
       (issuesOf Sample.loadedAt Sample.loadedAt Sample.wrongAgeNoAvatar) /\
  errorMessage Sample.loadedAt Sample.loadedAt Sample.wrongAgeNoAvatar "age"
  = None.
Proof.
  repeat split; try reflexivity.
  intros [H|[]]. discriminate H.
Qed.

(** C1, amended: for every draft whose age is a number and whose date of
    birth is a valid date, and on which no key of the object aborts the
    parse, an age different from the floor of the years since the date of
    birth files the issue 'Age must match date of birth' at the age field
    (and that is the message shown there when the age is at least 10), and
    an age equal to that floor makes the cross-field check add nothing. *)
Theorem crossField_age_matches_dateOfBirth created now d a t :
  Draft.age d = Num a ->
  Draft.dateOfBirth d = DateObj (Some t) ->
  valueOf (fst (formObject created [] d)) <> None ->
  (strictEq a (calculatedAge now t) = false ->
   In ageMismatchIssue (issuesOf created now d) /\
   (lt a (ofZ 10) = false ->
    errorMessage created now d "age" = Some "Age must match date of birth")) /\
  (strictEq a (calculatedAge now t) = true ->
   snd (formSchema created now [] d) = snd (formObject created [] d)).
Proof.
  intros Ha Ht Hv.
  destruct (crossIssues_eq created now d a t Ha Ht Hv) as (_ & Hno & Hx).
  split; intros E; rewrite E in Hx.
  - split.
    + rewrite issuesOf_eq, formSchema_issues, Hx.
      apply in_or_app. right. now left.
    + intros Hlt. rewrite errorMessage_age, Hx, (Hno Hlt). reflexivity.
  - rewrite formSchema_issues, Hx. apply app_nil_r.
Qed.

Lemma crossField_age_matches_dateOfBirth_witness :
  (Draft.age Sample.wrongAge = Num (ofZ 30) /\
   Draft.dateOfBirth Sample.wrongAge = DateObj (Some Sample.born2003) /\
   valueOf (fst (formObject Sample.loadedAt [] Sample.wrongAge)) <> None) /\
  errorMessage Sample.loadedAt Sample.loadedAt Sample.wrongAge "age"
  = Some "Age must match date of birth" /\
  snd (formSchema Sample.loadedAt Sample.loadedAt [] Sample.filled)
  = snd (formObject Sample.loadedAt [] Sample.filled).
Proof.
  split; [|split].
  - repeat split; try reflexivity. discriminate.
  - apply (crossField_age_matches_dateOfBirth
             Sample.loadedAt Sample.loadedAt Sample.wrongAge
             (ofZ 30) Sample.born2003);
      try reflexivity. discriminate.
  - apply (crossField_age_matches_dateOfBirth
             Sample.loadedAt Sample.loadedAt Sample.filled
             (ofZ 20) Sample.born2003);
      try reflexivity. discriminate.
Defined.

(* ------------------------------------------------------------------ *)
(** ** The age field (line 13) *)

Lemma ageSchema_no_issue p v :
  snd (ageSchema p v) = [] ->
  exists n, v = Num n /\ n <> NaN /\ lt n (ofZ 10) = false.
Proof.
  unfold ageSchema, Zod.number, Zod.numberChecks.
  destruct v as [| | |n| | | | |]; try discriminate.
  destruct n as [|s|q]; try discriminate;
    destruct (lt _ (ofZ 10)) eqn:E; try discriminate; intros _;
    eexists; repeat split; try eassumption; discriminate.
Qed.

(** The rule of the age field taken alone raises no issue exactly when the
    value is a number other than NaN that is not less than 10; that the age
    is whole comes from the input binding and from the cross-field check. *)
Theorem age_rule p v :
  snd (ageSchema p v) = [] <->
  exists n, v = Num n /\ n <> NaN /\ lt n (ofZ 10) = false.
Proof.
  split.
  - apply ageSchema_no_issue.
  - intros (n & -> & Hn & Hlt).
    unfold ageSchema, Zod.number, Zod.numberChecks.
    destruct n as [|s|q]; [contradiction| |]; now rewrite Hlt.
Qed.

Lemma strictEq_integer a k : strictEq a (ofZ k) = true -> isInteger a = true.
Proof.
  destruct a as [|s|q]; simpl; try discriminate.
  intros E. apply Qeq_bool_iff in E. apply Qeq_bool_iff.
  rewrite E at 2. rewrite Qfloor_Z. exact E.
Qed.

(** A draft on which the whole validation succeeds has an integer age that
    is not less than 10: the cross-field check compares it with a floor. *)
Theorem validated_age_is_integer created now d v :
  Zod.safeParse (formSchema created now) d = inl v ->
  Draft.age d = Num (FormValues.age v) /\
  isInteger (FormValues.age v) = true /\
  lt (FormValues.age v) (ofZ 10) = false.
Proof.
  unfold Zod.safeParse, formSchema, Zod.superRefine, crossFieldCheck.
  destruct (formObject created [] d) as [r iss] eqn:E.
  assert (Hok := formObject_ok created d).
  assert (Hval := formObject_value created d).
  rewrite E in Hok, Hval. simpl in Hok, Hval.
  destruct r as [|w|w]; simpl.
  - discriminate.
  - destruct (strictEq _ _); simpl; discriminate.
  - destruct (strictEq _ _) eqn:Heq; simpl; [|discriminate].
    intros H. injection H as <-.
    destruct (Hval w eq_refl) as (_ & Hage & _).
    specialize (Hok eq_refl). subst iss.
    pose proof (formObject_issues created d) as Hiss.
    rewrite E in Hiss. simpl in Hiss. symmetry in Hiss.
    apply app_eq_nil in Hiss. destruct Hiss as [_ Hiss].
    apply app_eq_nil in Hiss. destruct Hiss as [Hiss _].
    apply ageSchema_no_issue in Hiss. destruct Hiss as (n & Hn & Hnan & Hlt).
    rewrite Hn in Hage. apply ageSchema_value in Hage.
    destruct Hage as (Hx & _). rewrite Hx in *. repeat split; auto.
    eapply strictEq_integer. exact Heq.
Qed.

(* ------------------------------------------------------------------ *)
(** ** The date of birth (lines 22-26) *)

(** The bound of the date of birth is computed from the clock reading taken
    when the schema is built. *)
Lemma dateOfBirth_rule created p t :
  (Z.abs (created - 10 * 365 * 24 * 60 * 60 * 1000) <= 8640000000000000)%Z ->
  ((t <= created - 10 * 365 * 24 * 60 * 60 * 1000)%Z ->
   dateOfBirthSchema created p (DateObj (Some t)) = (Zod.OK t, [])) /\
  ((created - 10 * 365 * 24 * 60 * 60 * 1000 < t)%Z ->
   dateOfBirthSchema created p (DateObj (Some t))
   = (Zod.DIRTY t, [Zod.issue Zod.too_big p "Must be at least 10 years old"])).
Proof.
  intros Hr. unfold dateOfBirthSchema, Zod.date, Zod.dateChecks, getTime, newDate.
  apply Z.leb_le in Hr. rewrite Hr.
  split; intros H.
  - destruct (Z.gtb_spec t (created - 10 * 365 * 24 * 60 * 60 * 1000)); [lia|].
    reflexivity.
  - destruct (Z.gtb_spec t (created - 10 * 365 * 24 * 60 * 60 * 1000)); [|lia].
    reflexivity.
Qed.

(** C3 at a page loaded on 2024-01-01 and submitted a week later with a
    birth date of 2014-01-05: at the time of validation the date lies more
    than ten years (of 365 days, and of the calendar) back, and the field is
    refused with 'Must be at least 10 years old'; the same draft passes a
    schema built at the time of validation. *)
Theorem dateOfBirth_bound_is_frozen_at_load :
  (Sample.born2014 <= Sample.aWeekLater - 10 * 365 * 24 * 60 * 60 * 1000)%Z /\
  issuesOf Sample.loadedAt Sample.aWeekLater Sample.justTen
  = [Zod.issue Zod.too_big [Zod.Field "dateOfBirth"]
               "Must be at least 10 years old"] /\
  errorMessage Sample.loadedAt Sample.aWeekLater Sample.justTen "dateOfBirth"
  = Some "Must be at least 10 years old" /\
  issuesOf Sample.aWeekLater Sample.aWeekLater Sample.justTen = [].
Proof. repeat split; try reflexivity. vm_compute. discriminate. Qed.

(* ------------------------------------------------------------------ *)
(** ** The avatar (lines 27-34) *)

Lemma avatarSchema_file p f :
  avatarSchema p (FileObj f) =
  if isImage f
  then if (size f <=? 5 * 1024 * 1024)%N
       then (Zod.OK f, [])
       else (Zod.DIRTY f,
             [Zod.issue Zod.custom p "Image size must be less than 5MB"])
  else if (size f <=? 5 * 1024 * 1024)%N
       then (Zod.DIRTY f, [Zod.issue Zod.custom p "Invalid file type"])
       else (Zod.DIRTY f,
             [Zod.issue Zod.custom p "Invalid file type";
              Zod.issue Zod.custom p "Image size must be less than 5MB"]).
Proof.
  unfold avatarSchema, Zod.refine, Zod.superRefine, Zod.instanceofFile.
  cbn -[N.leb N.mul isImage].
  destruct (isImage f); cbn -[N.leb N.mul];
    destruct (size f <=? 5 * 1024 * 1024)%N; cbn; now rewrite ?app_nil_r.
Qed.

(** C4: whatever else the draft holds, an avatar file whose type does not
    start with 'image/' is answered by 'Invalid file type', also when it is
    too large; an image above 5MB by 'Image size must be less than 5MB'; an
    image of at most 5MB raises no issue and gets no message. *)
Theorem avatar_rules created now d f :
  Draft.avatar d = FileObj f ->
  (isImage f = false ->
   errorMessage created now d "avatar" = Some "Invalid file type") /\
  (isImage f = true -> (5 * 1024 * 1024 < size f)%N ->
   errorMessage created now d "avatar"
   = Some "Image size must be less than 5MB") /\
  (isImage f = true -> (size f <= 5 * 1024 * 1024)%N ->
   avatarSchema [Zod.Field "avatar"] (Draft.avatar d) = (Zod.OK f, []) /\
   errorMessage created now d "avatar" = None).
Proof.
  intros Hf. rewrite errorMessage_avatar, Hf, avatarSchema_file.
  split; [|split].
  - intros Hi. rewrite Hi. now destruct (size f <=? 5 * 1024 * 1024)%N.
  - intros Hi Hs. apply N.leb_gt in Hs. now rewrite Hi, Hs.
  - intros Hi Hs. apply N.leb_le in Hs. now rewrite Hi, Hs.
Qed.

Lemma avatar_rules_witness :
  errorMessage Sample.loadedAt Sample.loadedAt
               (Draft.set_avatar (FileObj Sample.report) Sample.filled) "avatar"
  = Some "Invalid file type" /\
  errorMessage Sample.loadedAt Sample.loadedAt
               (Draft.set_avatar (FileObj Sample.hugePhoto) Sample.filled) "avatar"
  = Some "Image size must be less than 5MB" /\
  errorMessage Sample.loadedAt Sample.loadedAt Sample.filled "avatar" = None.
Proof.
  split; [|split].
  - apply (avatar_rules Sample.loadedAt Sample.loadedAt
                        (Draft.set_avatar (FileObj Sample.report) Sample.filled)
                        Sample.report); reflexivity.
  - apply (avatar_rules Sample.loadedAt Sample.loadedAt
                        (Draft.set_avatar (FileObj Sample.hugePhoto) Sample.filled)
                        Sample.hugePhoto); reflexivity.
  - apply (avatar_rules Sample.loadedAt Sample.loadedAt Sample.filled
                        Sample.photo); [reflexivity | reflexivity |].
    vm_compute. discriminate.
Defined.

(* ------------------------------------------------------------------ *)
(** ** The additional pictures (lines 35-47) *)

Lemma pictureSchema_valid p f :
  validPicture f -> pictureSchema p (FileObj f) = (Zod.OK f, []).
Proof.
  intros [Hi Hs]. apply N.leb_le in Hs.
  unfold pictureSchema, Zod.refine, Zod.superRefine, Zod.instanceofFile.
  cbn -[N.leb N.mul isImage]. rewrite Hi. cbn -[N.leb N.mul].
  now rewrite Hs.
Qed.

Lemma elements_valid p l :
  Forall validPicture l ->
  forall i, Zod.elements pictureSchema p i (map FileObj l) = (Zod.OK l, []).
Proof.
  induction 1 as [|f l Hf _ IH]; intros i; simpl; [reflexivity|].
  now rewrite (pictureSchema_valid _ _ Hf), IH.
Qed.

Lemma additionalPicturesSchema_valid p l :
  Forall validPicture l ->
  additionalPicturesSchema p (Arr (map FileObj l)) =
  if (5 <? List.length l)%nat
  then (Zod.DIRTY (Some l),
        [Zod.issue Zod.too_big p "Maximum 5 images allowed"])
  else (Zod.OK (Some l), []).
Proof.
  intros H. unfold additionalPicturesSchema, Zod.optional, Zod.array.
  rewrite (elements_valid p l H 0), length_map.
  now destruct (5 <? List.length l)%nat.
Qed.

(** C5: a list of image files of at most 50MB each raises no issue and gets
    no message when it holds 5 files or fewer; holding more than 5 files, 6
    for one, it is answered by 'Maximum 5 images allowed'. *)
Theorem additionalPictures_rules created now d l :
  Draft.additionalPictures d = Arr (map FileObj l) ->
  Forall validPicture l ->
  ((List.length l <= 5)%nat ->
   additionalPicturesSchema [Zod.Field "additionalPictures"]
                            (Draft.additionalPictures d)
   = (Zod.OK (Some l), []) /\
   errorMessage created now d "additionalPictures" = None) /\
  ((List.length l = 6)%nat \/ (5 < List.length l)%nat ->
   additionalPicturesSchema [Zod.Field "additionalPictures"]
                            (Draft.additionalPictures d)
   = (Zod.DIRTY (Some l),
      [Zod.issue Zod.too_big [Zod.Field "additionalPictures"]
                 "Maximum 5 images allowed"]) /\
   errorMessage created now d "additionalPictures"
   = Some "Maximum 5 images allowed").
Proof.
  intros Hd Hl.
  rewrite errorMessage_additionalPictures, Hd,
    (additionalPicturesSchema_valid _ _ Hl).
  split; intros Hn.
  - apply Nat.ltb_ge in Hn. now rewrite Hn.
  - assert (H : (5 < List.length l)%nat) by lia.
    apply Nat.ltb_lt in H. now rewrite H.
Qed.

Lemma additionalPictures_rules_witness :
  errorMessage Sample.loadedAt Sample.loadedAt
    (Draft.set_additionalPictures
       (Arr (map FileObj (repeat Sample.photo 6))) Sample.filled)
    "additionalPictures"
  = Some "Maximum 5 images allowed" /\
  errorMessage Sample.loadedAt Sample.loadedAt
    (Draft.set_additionalPictures
       (Arr (map FileObj (repeat Sample.photo 5))) Sample.filled)
    "additionalPictures"
  = None.
Proof.
  assert (V : forall n, Forall validPicture (repeat Sample.photo n)).
  { intros n. apply Forall_forall. intros f Hf.
    apply repeat_spec in Hf. subst f. split; [reflexivity|].
    vm_compute. discriminate. }
  split.
  - apply (additionalPictures_rules Sample.loadedAt Sample.loadedAt
             (Draft.set_additionalPictures
                (Arr (map FileObj (repeat Sample.photo 6))) Sample.filled)
             (repeat Sample.photo 6) eq_refl (V 6%nat)).
    left. reflexivity.
  - apply (additionalPictures_rules Sample.loadedAt Sample.loadedAt
             (Draft.set_additionalPictures
                (Arr (map FileObj (repeat Sample.photo 5))) Sample.filled)
             (repeat Sample.photo 5) eq_refl (V 5%nat)).
    simpl. lia.
Defined.

(* ------------------------------------------------------------------ *)
(** ** The website (lines 15-21) *)

(** C6: the empty string is taken by the literal option and passes; "ab" is
    answered by the message of the length rule; "abcde" holds no dot and is
    answered by 'Invalid'; "abc.de" passes.  The same holds for the message
    under the input, whatever else the draft holds. *)
Theorem website_rules created now d :
  (websiteSchema [Zod.Field "website"] (Str EmptyString)
   = (Zod.OK (inr EmptyString), []) /\
   websiteSchema [Zod.Field "website"] (Str "ab")
   = (Zod.DIRTY (inl (Some "ab")),
      [Zod.issue Zod.too_small [Zod.Field "website"]
                 "Must be a minimum of 5 characters";
       Zod.issue Zod.custom [Zod.Field "website"] "Invalid"]) /\
   websiteSchema [Zod.Field "website"] (Str "abcde")
   = (Zod.DIRTY (inl (Some "abcde")),
      [Zod.issue Zod.custom [Zod.Field "website"] "Invalid"]) /\
   websiteSchema [Zod.Field "website"] (Str "abc.de")
   = (Zod.OK (inl (Some "abc.de")), [])) /\
  (Draft.website d = Str EmptyString ->
   errorMessage created now d "website" = None) /\
  (Draft.website d = Str "ab" ->
   errorMessage created now d "website"
   = Some "Must be a minimum of 5 characters") /\
  (Draft.website d = Str "abcde" ->
   errorMessage created now d "website" = Some "Invalid") /\
  (Draft.website d = Str "abc.de" ->
   errorMessage created now d "website" = None).
Proof.
  split; [repeat split; reflexivity|].
  repeat split; intros H; rewrite errorMessage_website, H; reflexivity.
Qed.

Lemma website_rules_witness :
  errorMessage Sample.loadedAt Sample.loadedAt Sample.filled "website" = None /\
  errorMessage Sample.loadedAt Sample.loadedAt
               (Draft.set_website (Str "ab") Sample.filled) "website"
  = Some "Must be a minimum of 5 characters" /\
  errorMessage Sample.loadedAt Sample.loadedAt
               (Draft.set_website (Str "abcde") Sample.filled) "website"
  = Some "Invalid" /\
  errorMessage Sample.loadedAt Sample.loadedAt
               (Draft.set_website (Str "abc.de") Sample.filled) "website"
  = None.
Proof.
  split; [|split; [|split]].
  - apply (proj1 (proj2
       (website_rules Sample.loadedAt Sample.loadedAt Sample.filled))).
    reflexivity.
  - apply (proj1 (proj2 (proj2
       (website_rules Sample.loadedAt Sample.loadedAt
          (Draft.set_website (Str "ab") Sample.filled))))).
    reflexivity.
  - apply (proj1 (proj2 (proj2 (proj2
       (website_rules Sample.loadedAt Sample.loadedAt
          (Draft.set_website (Str "abcde") Sample.filled)))))).
    reflexivity.
  - apply (proj2 (proj2 (proj2 (proj2
       (website_rules Sample.loadedAt Sample.loadedAt
          (Draft.set_website (Str "abc.de") Sample.filled)))))).
    reflexivity.
Defined.

(* ------------------------------------------------------------------ *)
(** ** The name (line 12) *)

(** C7: a draft whose name is missing or is the empty string fails
    validation and the name field is answered by 'Required'. *)
Theorem name_required created now d :
  Draft.name d = undefined \/ Draft.name d = Str EmptyString ->
  errorMessage created now d "name" = Some "Required" /\
  exists issues, Zod.safeParse (formSchema created now) d = inr issues.
Proof.
  intros H.
  assert (E : errorMessage created now d "name" = Some "Required")
    by (rewrite errorMessage_name; destruct H as [-> | ->]; reflexivity).
  split; [exact E|].
  unfold errorMessage, Resolver.errors in E.
  destruct (Zod.safeParse (formSchema created now) d) as [v|issues];
    [discriminate | now exists issues].
Qed.

Lemma name_required_witness :
  errorMessage Sample.loadedAt Sample.loadedAt
               (Draft.set_name undefined Sample.filled) "name"
  = Some "Required" /\
  errorMessage Sample.loadedAt Sample.loadedAt
               (Draft.set_name (Str EmptyString) Sample.filled) "name"
  = Some "Required".
Proof.
  split.
  - apply (name_required Sample.loadedAt Sample.loadedAt
                         (Draft.set_name undefined Sample.filled)).
    left. reflexivity.
  - apply (name_required Sample.loadedAt Sample.loadedAt
                         (Draft.set_name (Str EmptyString) Sample.filled)).
    right. reflexivity.
Defined.

(* ------------------------------------------------------------------ *)
(** ** The handlers of the file inputs (lines 116-122 and 138-148) *)

(** C8: choosing a file whose type does not start with 'image/' writes the
    file to the form, where validation answers 'Invalid file type', and
    leaves the avatar preview, the other previews and the object-URL store
    as they were. *)
Theorem avatar_onChange_not_an_image created now st f rest :
  isImage f = false ->
  avatar_onChange (Some (f :: rest)) st
  = (Normal tt,
     {| fieldValues := Draft.set_avatar (FileObj f) (fieldValues st);
        avatarPreview := avatarPreview st;
        additionalPicturesPreviews := additionalPicturesPreviews st;
        objectURLs := objectURLs st |}) /\
  avatarPreview (snd (avatar_onChange (Some (f :: rest)) st))
  = avatarPreview st /\
  errorMessage created now
               (fieldValues (snd (avatar_onChange (Some (f :: rest)) st)))
               "avatar"
  = Some "Invalid file type".
Proof.
  intros Hf.
  assert (E : avatar_onChange (Some (f :: rest)) st
              = (Normal tt,
                 {| fieldValues := Draft.set_avatar (FileObj f) (fieldValues st);
                    avatarPreview := avatarPreview st;
                    additionalPicturesPreviews := additionalPicturesPreviews st;
                    objectURLs := objectURLs st |})).
  { unfold avatar_onChange, bind, onChange_avatar, typeOf, ret. simpl.
    unfold isImage in Hf. now rewrite Hf. }
  rewrite E. repeat split.
  rewrite errorMessage_avatar. cbn [snd fieldValues Draft.set_avatar Draft.avatar].
  rewrite avatarSchema_file, Hf.
  now destruct (size f <=? 5 * 1024 * 1024)%N.
Qed.

Lemma avatar_onChange_not_an_image_witness :
  isImage Sample.report = false /\
  avatarPreview (snd (avatar_onChange (Some [Sample.report]) Sample.initial))
  = Some (blob 0) /\
  Draft.avatar
    (fieldValues (snd (avatar_onChange (Some [Sample.report]) Sample.initial)))
  = FileObj Sample.report.
Proof.
  split; [reflexivity|].
  pose proof (avatar_onChange_not_an_image
                Sample.loadedAt Sample.loadedAt Sample.initial Sample.report []
                eq_refl) as [E _].
  rewrite E. split; reflexivity.
Defined.

(** C9 at a selection event whose file list is empty: the form value is set
    to [undefined] and reading the type of the missing file throws. *)
Theorem avatar_onChange_empty_list_throws st :
  nth_error (@nil File) 0 = None /\
  avatar_onChange (Some []) st
  = (TypeError,
     {| fieldValues := Draft.set_avatar undefined (fieldValues st);
        avatarPreview := avatarPreview st;
        additionalPicturesPreviews := additionalPicturesPreviews st;
        objectURLs := objectURLs st |}).
Proof. split; reflexivity. Qed.

(** On a list that holds a file the avatar handler completes. *)
Lemma avatar_onChange_nonempty_completes f rest st :
  fst (avatar_onChange (Some (f :: rest)) st) = Normal tt.
Proof.
  unfold avatar_onChange, bind, onChange_avatar, typeOf, ret. simpl.
  now destruct (startsWith (type f) "image/").
Qed.

Lemma mapM_createObjectURL_completes (k : list File) :
  forall s, exists us s', mapM createObjectURL k s = (Normal us, s').
Proof.
  induction k as [|x k IH]; intros s; simpl.
  - now exists [], s.
  - unfold bind at 1. cbn [createObjectURL].
    unfold bind at 1.
    match goal with
    | |- context [mapM createObjectURL k ?s1] =>
        destruct (IH s1) as (us & s' & E)
    end.
    rewrite E. unfold ret. eauto.
Qed.

(** The handler of the additional pictures completes on every event, the
    empty list included. *)
Lemma additionalPictures_onChange_completes files st :
  fst (additionalPictures_onChange files st) = Normal tt.
Proof.
  destruct files as [l|]; [|reflexivity].
  unfold additionalPictures_onChange.
  unfold bind at 1. cbn [onChange_additionalPictures].
  destruct (forallb _ l); cbn [negb]; [|reflexivity].
  destruct (Nat.eqb (List.length l) 0); cbn [negb]; [reflexivity|].
  match goal with
  | |- context [mapM createObjectURL l] =>
      unfold bind;
      match goal with
      | |- context [mapM createObjectURL l ?s1] =>
          destruct (mapM_createObjectURL_completes l s1) as (us & s' & E)
      end
  end.
  rewrite E. reflexivity.
Qed.

(** C10: on an event whose file list is null both handlers return at once
    and leave the state, form values and previews alike, untouched. *)
Theorem onChange_null_files st :
  avatar_onChange None st = (Normal tt, st) /\
  additionalPictures_onChange None st = (Normal tt, st).
Proof. split; reflexivity. Qed.

(* ------------------------------------------------------------------ *)
(** ** The language of the phone pattern (lines 6-8, 14) *)

Section RegexLanguage.

Lemma append_empty (s t : string) :
  (s ++ t)%string = EmptyString -> s = EmptyString /\ t = EmptyString.
Proof. destruct s; simpl; [auto | discriminate]. Qed.

Lemma append_empty_r (s : string) : (s ++ EmptyString)%string = s.
Proof. induction s; simpl; [reflexivity | now rewrite IHs]. Qed.

Lemma matches_void_inv w : Matches Regex.Void w -> False.
Proof. intros H. inversion H. Qed.

Lemma matches_eps_inv w : Matches Regex.Eps w -> w = EmptyString.
Proof. intros H. now inversion H. Qed.

Lemma matches_class_inv p w :
  Matches (Regex.Class p) w -> exists c, w = String c EmptyString /\ p c = true.
Proof. intros H. inversion H; subst. eauto. Qed.

Lemma matches_seq_inv a b w :
  Matches (Regex.Seq a b) w ->
  exists s t, w = (s ++ t)%string /\ Matches a s /\ Matches b t.
Proof. intros H. inversion H; subst. eauto. Qed.

Lemma matches_alt_inv a b w :
  Matches (Regex.Alt a b) w -> Matches a w \/ Matches b w.
Proof. intros H. inversion H; subst; auto. Qed.

Lemma matches_star_inv a w :
  Matches (Regex.Star a) w ->
  w = EmptyString \/
  exists s t, w = (s ++ t)%string /\ Matches a s /\ Matches (Regex.Star a) t.
Proof.
  intros H. inversion H; subst; [now left|].
  right. eexists _, _. repeat split; eassumption.
Qed.

Lemma nullable_spec r : Regex.nullable r = true <-> Matches r EmptyString.
Proof.
  induction r as [| |p|a IHa b IHb|a IHa b IHb|a IHa]; simpl.
  - split; [discriminate | intros H; now apply matches_void_inv in H].
  - split; [constructor | reflexivity].
  - split; [discriminate|]. intros H.
    apply matches_class_inv in H. destruct H as (c & E & _). discriminate.
  - split; intros H.
    + apply andb_true_iff in H. destruct H as [Ha Hb].
      change EmptyString with (EmptyString ++ EmptyString)%string.
      constructor; [now apply IHa | now apply IHb].
    + apply matches_seq_inv in H. destruct H as (s & t & E & Hs & Ht).
      symmetry in E. apply append_empty in E. destruct E as [-> ->].
      apply andb_true_iff. split; [now apply IHa | now apply IHb].
  - split; intros H.
    + apply orb_true_iff in H. destruct H as [H|H];
        [apply MAltL; now apply IHa | apply MAltR; now apply IHb].
    + apply orb_true_iff. apply matches_alt_inv in H.
      destruct H; [left; now apply IHa | right; now apply IHb].
  - split; [constructor | reflexivity].
Qed.

Lemma star_cons a c s :
  Matches (Regex.Star a) (String c s) ->
  exists s1 s2, s = (s1 ++ s2)%string /\ Matches a (String c s1) /\
                Matches (Regex.Star a) s2.
Proof.
  intros H. remember (Regex.Star a) as r eqn:Er.
  remember (String c s) as w eqn:Ew. revert s Ew.
  induction H as [| | | | | |a' s0 t Hs _ Ht IHt]; intros u Ew;
    try discriminate.
  injection Er as ->.
  destruct s0 as [|c0 s0]; simpl in Ew.
  - now apply IHt.
  - injection Ew as -> <-. now exists s0, t.
Qed.

Lemma deriv_spec c r : forall s,
  Matches (Regex.deriv c r) s <-> Matches r (String c s).
Proof.
  induction r as [| |p|a IHa b IHb|a IHa b IHb|a IHa]; intros s; simpl.
  - split; intros H; now apply matches_void_inv in H.
  - split; intros H;
      [now apply matches_void_inv in H
      | apply matches_eps_inv in H; discriminate].
  - split; intros H.
    + destruct (p c) eqn:E; [|now apply matches_void_inv in H].
      apply matches_eps_inv in H. subst s. now constructor.
    + apply matches_class_inv in H. destruct H as (c' & E & Hp).
      injection E as -> ->. rewrite Hp. constructor.
  - split; intros H.
    + assert (L : forall w, Matches (Regex.Seq (Regex.deriv c a) b) w ->
                            Matches (Regex.Seq a b) (String c w)).
      { intros w Hw. apply matches_seq_inv in Hw.
        destruct Hw as (s1 & s2 & -> & H1 & H2).
        change (String c (s1 ++ s2)) with (String c s1 ++ s2)%string.
        constructor; [now apply IHa | assumption]. }
      destruct (Regex.nullable a) eqn:N; [|now apply L].
      apply matches_alt_inv in H. destruct H as [H|H]; [now apply L|].
      change (String c s) with (EmptyString ++ String c s)%string.
      constructor; [now apply nullable_spec | now apply IHb].
    + apply matches_seq_inv in H. destruct H as (s1 & s2 & E & H1 & H2).
      destruct s1 as [|c1 s1]; simpl in E.
      * subst s2. apply nullable_spec in H1. rewrite H1.
        apply MAltR. now apply IHb.
      * injection E as <- ->.
        assert (M : Matches (Regex.Seq (Regex.deriv c a) b) (s1 ++ s2))
          by (constructor; [now apply IHa | assumption]).
        destruct (Regex.nullable a); [now apply MAltL | exact M].
  - split; intros H; apply matches_alt_inv in H;
      (destruct H; [apply MAltL; now apply IHa | apply MAltR; now apply IHb]).
  - split; intros H.
    + apply matches_seq_inv in H. destruct H as (s1 & s2 & -> & H1 & H2).
      change (String c (s1 ++ s2)) with (String c s1 ++ s2)%string.
      constructor; [now apply IHa | assumption].
    + apply star_cons in H. destruct H as (s1 & s2 & -> & H1 & H2).
      constructor; [now apply IHa | assumption].
Qed.

(** The matcher decides membership in the language of the pattern. *)
Lemma test_spec r s : Regex.test r s = true <-> Matches r s.
Proof.
  revert r. induction s as [|c s IH]; intros r; simpl.
  - apply nullable_spec.
  - rewrite IH. apply deriv_spec.
Qed.

End RegexLanguage.

Section Phone.
Import Zod Resolver.

Lemma allChars_app P s t :
  allChars P (s ++ t) = allChars P s && allChars P t.
Proof.
  induction s as [|c s IH]; simpl; [reflexivity|].
  now rewrite IH, andb_assoc.
Qed.

Lemma matches_chars P r s :
  classesWithin P r -> Matches r s -> allChars P s = true.
Proof.
  intros Hr H. induction H; simpl in *; try reflexivity.
  - now rewrite (Hr c H).
  - destruct Hr as [Ha Hb]. now rewrite allChars_app, IHMatches1, IHMatches2.
  - destruct Hr as [Ha Hb]. auto.
  - destruct Hr as [Ha Hb]. auto.
  - now rewrite allChars_app, IHMatches1, IHMatches2.
Qed.

Lemma phoneRegex_classes : classesWithin phoneChar phoneRegex.
Proof.
  unfold phoneRegex, Regex.Opt, Regex.Plus, Regex.Chr, Regex.digit, Regex.space.
  cbn [classesWithin]. unfold phoneChar, isDigit.
  repeat split; auto; intros c H;
    try (apply Ascii.eqb_eq in H; subst c; reflexivity);
    destruct (Regex.isSpace c),
             ((48 <=? nat_of_ascii c)%nat && (nat_of_ascii c <=? 57)%nat);
    simpl in *; try discriminate; reflexivity.
Qed.

Lemma lastChar_app s t :
  t <> EmptyString -> lastChar (s ++ t) = lastChar t.
Proof.
  intros Ht. induction s as [|c s IH]; simpl; [reflexivity|].
  rewrite IH. destruct (s ++ t)%string eqn:E; [|reflexivity].
  apply append_empty in E. destruct E as [_ E]. contradiction.
Qed.

Lemma lastChar_some s c : lastChar s = Some c -> s <> EmptyString.
Proof. destruct s; [discriminate | discriminate]. Qed.

Lemma endsInDigit_app s t c :
  lastChar t = Some c -> lastChar (s ++ t) = Some c.
Proof.
  intros H. rewrite lastChar_app; [exact H | now apply lastChar_some in H].
Qed.

Lemma star_last a t :
  (forall s, Matches a s -> exists c, lastChar s = Some c /\ isDigit c = true) ->
  Matches (Regex.Star a) t ->
  t = EmptyString \/ exists c, lastChar t = Some c /\ isDigit c = true.
Proof.
  intros Ha H. remember (Regex.Star a) as r eqn:Er.
  induction H as [| | | | | |a' s t Hs _ Ht IHt]; try discriminate;
    [now left|].
  injection Er as ->. right.
  destruct (IHt eq_refl) as [->|(c & Hc & Hd)].
  - rewrite append_empty_r. now apply Ha.
  - exists c. split; [now apply endsInDigit_app | exact Hd].
Qed.

(** Whatever the pattern accepts ends in a digit. *)
Lemma phoneRegex_last s :
  Matches phoneRegex s -> exists c, lastChar s = Some c /\ isDigit c = true.
Proof.
  unfold phoneRegex, Regex.Plus. intros H.
  apply matches_seq_inv in H. destruct H as (s1 & r1 & -> & _ & H).
  apply matches_seq_inv in H. destruct H as (s2 & r2 & -> & _ & H).
  assert (Hunit : forall w,
             Matches (Regex.Seq (Regex.Opt (Regex.Chr "-"))
                        (Regex.Seq (Regex.Opt Regex.space) Regex.digit)) w ->
             exists c, lastChar w = Some c /\ isDigit c = true).
  { intros w Hw.
    apply matches_seq_inv in Hw. destruct Hw as (a & b & -> & _ & Hw).
    apply matches_seq_inv in Hw. destruct Hw as (a' & b' & -> & _ & Hw).
    apply matches_class_inv in Hw. destruct Hw as (c & -> & Hc).
    exists c. split; [|exact Hc].
    now apply endsInDigit_app, endsInDigit_app. }
  apply matches_seq_inv in H. destruct H as (u & v & -> & Hu & Hv).
  destruct (Hunit u Hu) as (c & Hc & Hd).
  destruct (star_last _ v Hunit Hv) as [->|(c' & Hc' & Hd')].
  - exists c. split; [|exact Hd].
    rewrite append_empty_r. now apply endsInDigit_app, endsInDigit_app.
  - exists c'. split; [|exact Hd'].
    now apply endsInDigit_app, endsInDigit_app, endsInDigit_app.
Qed.

Lemma digits_star s :
  allChars isDigit s = true ->
  Matches (Regex.Star
             (Regex.Seq (Regex.Opt (Regex.Chr "-"))
                        (Regex.Seq (Regex.Opt Regex.space) Regex.digit))) s.
Proof.
  induction s as [|c s IH]; simpl; intros H; [constructor|].
  apply andb_true_iff in H. destruct H as [Hc Hs].
  change (String c s) with (String c EmptyString ++ s)%string.
  constructor; [|now apply IH].
  change (String c EmptyString)
    with (EmptyString ++ (EmptyString ++ String c EmptyString))%string.
  constructor; [apply MAltR; constructor|].
  constructor; [apply MAltR; constructor|].
  now constructor.
Qed.

(** The pattern accepts every string of digits that is not empty. *)
Lemma phoneRegex_digits s :
  s <> EmptyString -> allChars isDigit s = true ->
  Regex.test phoneRegex s = true.
Proof.
  intros Hne Hs. apply test_spec. unfold phoneRegex, Regex.Plus.
  destruct s as [|c s]; [contradiction|].
  simpl in Hs. apply andb_true_iff in Hs. destruct Hs as [Hc Hs].
  change (String c s)
    with (EmptyString ++ (EmptyString ++ (String c EmptyString ++ s)))%string.
  constructor; [apply MAltR; constructor|].
  constructor; [apply MAltR; constructor|].
  constructor; [|now apply digits_star].
  change (String c EmptyString)
    with (EmptyString ++ (EmptyString ++ String c EmptyString))%string.
  constructor; [apply MAltR; constructor|].
  constructor; [apply MAltR; constructor|].
  now constructor.
Qed.

Lemma phoneSchema_string p s :
  phoneSchema p (Str s) =
  if Regex.test phoneRegex s then (OK (inl (Some s)), [])
  else if String.eqb s EmptyString then (OK (inr s), [])
       else (DIRTY (inl (Some s)), [issue invalid_string p "Invalid"]).
Proof.
  unfold phoneSchema, Zod.or, optional, Zod.string, literal.
  cbn [stringChecks]. 
  destruct (Regex.test phoneRegex s), (String.eqb s EmptyString) eqn:E;
    cbn; try reflexivity.
Qed.

End Phone.

Section FieldRules.
Import Zod Resolver.
Variables created now : Z.
Variable d : Draft.t.

Ltac off_path :=
  repeat (apply Forall_app; split);
  first [ now constructor
        | apply crossIssues_off; discriminate
        | eapply block_off;
          [ first [ apply good_name | apply good_age | apply good_phone
                  | apply good_website | apply good_dateOfBirth
                  | apply good_avatar | apply good_additionalPictures ]
          | discriminate ] ].

Lemma errorMessage_phone :
  errorMessage created now d "phone" =
  option_map message
    (firstAt [Field "phone"]
             (visited (snd (phoneSchema [Field "phone"] (Draft.phone d))))).
Proof.
  eapply (errorMessage_select created now d _
            (snd (nameSchema _ _) ++ snd (ageSchema _ _))).
  - rewrite formSchema_issues, formObject_issues.
    rewrite <- !app_assoc. reflexivity.
  - off_path.
  - off_path.
Qed.

Lemma length_toLowerCase s : String.length (toLowerCase s) = String.length s.
Proof. induction s; simpl; [reflexivity | now rewrite IHs]. Qed.

Lemma lowerChar_dot c : lowerChar c = "."%char <-> c = "."%char.
Proof.
  destruct c as [[] [] [] [] [] [] [] []]; vm_compute; split; intros H;
    first [reflexivity | discriminate H].
Qed.

Lemma lowerChar_idempotent c : lowerChar (lowerChar c) = lowerChar c.
Proof. destruct c as [[] [] [] [] [] [] [] []]; reflexivity. Qed.

Lemma toLowerCase_idempotent s : toLowerCase (toLowerCase s) = toLowerCase s.
Proof.
  induction s; simpl; [reflexivity | now rewrite IHs, lowerChar_idempotent].
Qed.

Lemma prefix_empty s : String.prefix EmptyString s = true.
Proof. now destruct s. Qed.

Lemma index_dot_toLowerCase s :
  String.index 0 "." (toLowerCase s) = String.index 0 "." s.
Proof.
  induction s as [|c s IH]; [reflexivity|].
  cbn [toLowerCase String.index String.prefix]. rewrite IH.
  destruct (ascii_dec "." (lowerChar c)) as [E|E],
           (ascii_dec "." c) as [E'|E']; rewrite ?prefix_empty;
    try reflexivity.
  - symmetry in E. apply (proj1 (lowerChar_dot c)) in E. elim E'.
    now symmetry.
  - subst c. now elim E.
Qed.

Lemma indexOf_dot_toLowerCase s : indexOf (toLowerCase s) "." = indexOf s ".".
Proof. unfold indexOf. now rewrite index_dot_toLowerCase. Qed.

End FieldRules.

(* ------------------------------------------------------------------ *)
(** ** Which drafts the schema lets through *)

Section Acceptance.
Import Zod Resolver.

Lemma nameSchema_ok p v : isOK (fst (nameSchema p v)) = true <-> nameOK v.
Proof.
  unfold nameOK, nameSchema, Zod.string.
  destruct v as [| | | |s| | | |]; simpl;
    try (split; [discriminate | intros (s' & E & _); discriminate]).
  destruct s as [|c s]; simpl; split; intros H; try discriminate.
  - destruct H as (s' & E & Hne). injection E as <-. now elim Hne.
  - eexists. split; [reflexivity | discriminate].
  - reflexivity.
Qed.

Lemma ageSchema_ok p v : isOK (fst (ageSchema p v)) = true <-> ageOK v.
Proof.
  unfold ageOK. rewrite (proj2 (good_age p v)). split.
  - apply ageSchema_no_issue.
  - intros (n & -> & Hn & Hlt).
    unfold ageSchema, Zod.number, numberChecks.
    destruct n as [|s|q]; [contradiction| |]; now rewrite Hlt.
Qed.

Lemma phoneSchema_ok p v : isOK (fst (phoneSchema p v)) = true <-> phoneOK v.
Proof.
  unfold phoneOK.
  destruct v as [| | | |s| | | |];
    try (split; [discriminate
                | intros [E|(s' & E & _)]; discriminate]).
  - split; [now left | reflexivity].
  - rewrite phoneSchema_string.
    destruct (Regex.test phoneRegex s) eqn:T; simpl.
    + split; [|reflexivity]. intros _. right. exists s. auto.
    + destruct (String.eqb_spec s EmptyString) as [E|E]; simpl; split.
      * intros _. right. exists s. auto.
      * reflexivity.
      * discriminate.
      * intros [H|(s' & H & [H'|H'])]; try discriminate;
          injection H as <-; [contradiction | congruence].
Qed.

Lemma websiteSchema_string p s :
  websiteSchema p (Str s) =
  if negb (String.length s <? 5)%nat && negb (indexOf s "." =? -1)%Z
  then (OK (inl (Some (toLowerCase s))), [])
  else if String.eqb s EmptyString then (OK (inr s), [])
  else (DIRTY (inl (Some (toLowerCase s))),
        (if (String.length s <? 5)%nat
         then [issue too_small p "Must be a minimum of 5 characters"]
         else [])
        ++ (if negb (indexOf s "." =? -1)%Z then []
            else [issue custom p "Invalid"])).
Proof.
  unfold websiteSchema, Zod.or, optional, refine, superRefine, Zod.string,
    literal.
  cbn [stringChecks].
  rewrite length_toLowerCase.
  destruct (String.length s <? 5)%nat;
    cbn -[indexOf Z.eqb String.eqb toLowerCase];
    rewrite indexOf_dot_toLowerCase;
    destruct (indexOf s "." =? -1)%Z, (String.eqb s EmptyString);
    cbn; rewrite ?app_nil_r; reflexivity.
Qed.

(** The same with the two rules read on the lower-case form, as the schema
    applies them. *)
Lemma websiteSchema_lowered p s :
  websiteSchema p (Str s) =
  if negb (String.length (toLowerCase s) <? 5)%nat
     && negb (indexOf (toLowerCase s) "." =? -1)%Z
  then (OK (inl (Some (toLowerCase s))), [])
  else if String.eqb s EmptyString then (OK (inr s), [])
  else (DIRTY (inl (Some (toLowerCase s))),
        (if (String.length (toLowerCase s) <? 5)%nat
         then [issue too_small p "Must be a minimum of 5 characters"]
         else [])
        ++ (if negb (indexOf (toLowerCase s) "." =? -1)%Z then []
            else [issue custom p "Invalid"])).
Proof.
  unfold websiteSchema, Zod.or, optional, refine, superRefine, Zod.string,
    literal.
  cbn [stringChecks].
  destruct (String.length (toLowerCase s) <? 5)%nat;
    cbn -[indexOf Z.eqb String.eqb toLowerCase];
    destruct (indexOf (toLowerCase s) "." =? -1)%Z, (String.eqb s EmptyString);
    cbn; rewrite ?app_nil_r; reflexivity.
Qed.

Lemma websiteSchema_ok p v : isOK (fst (websiteSchema p v)) = true <-> websiteOK v.
Proof.
  unfold websiteOK.
  destruct v as [| | | |s| | | |];
    try (split; [discriminate
                | intros [E|(s' & E & _)]; discriminate]).
  - split; [now left | reflexivity].
  - rewrite websiteSchema_lowered.
    destruct (Nat.ltb_spec (String.length (toLowerCase s)) 5) as [L|L];
      destruct (Z.eqb_spec (indexOf (toLowerCase s) ".") (-1)) as [D|D];
      cbn [negb andb];
      destruct (String.eqb_spec s EmptyString) as [E|E]; cbn [fst isOK];
      split; intros H; try reflexivity; try discriminate;
      try (right; exists s; split; [reflexivity | now left]);
      try (right; exists s; split; [reflexivity | right; split; [lia | exact D]]);
      destruct H as [H|(s' & H & [H'|[H1 H2]])]; try discriminate;
      injection H as <-; try contradiction; try lia.
Qed.

Lemma dateOfBirthSchema_ok created p v :
  (Z.abs (created - 10 * 365 * 24 * 60 * 60 * 1000) <= 8640000000000000)%Z ->
  isOK (fst (dateOfBirthSchema created p v)) = true <-> dateOfBirthOK created v.
Proof.
  intros Hr. unfold dateOfBirthOK.
  destruct v as [| | | | |[t|]| | |];
    try (split; [discriminate | intros (t' & E & _); discriminate]).
  destruct (dateOfBirth_rule created p t Hr) as [H1 H2].
  destruct (Z_le_gt_dec t (created - 10 * 365 * 24 * 60 * 60 * 1000)) as [L|G].
  - rewrite (H1 L). split; [|reflexivity]. intros _. now exists t.
  - rewrite H2 by lia. split; [discriminate|].
    intros (t' & E & L). injection E as <-. lia.
Qed.

Lemma avatarSchema_ok p v : isOK (fst (avatarSchema p v)) = true <-> avatarOK v.
Proof.
  unfold avatarOK.
  destruct v as [| | | | | |f| |];
    try (split; [discriminate | intros (f' & E & _); discriminate]).
  rewrite avatarSchema_file.
  destruct (isImage f) eqn:I;
    destruct (N.leb_spec (size f) (5 * 1024 * 1024)) as [L|L]; cbn [fst isOK];
    split; intros H; try reflexivity; try discriminate;
    try (exists f; auto);
    destruct H as (f' & E & I' & L'); injection E as <-;
    try congruence; lia.
Qed.

Lemma pictureSchema_ok p v :
  isOK (fst (pictureSchema p v)) = true <->
  exists f, v = FileObj f /\ validPicture f.
Proof.
  unfold validPicture.
  destruct v as [| | | | | |f| |];
    try (split; [discriminate | intros (f' & E & _); discriminate]).
  unfold pictureSchema, refine, superRefine, instanceofFile.
  cbn -[N.leb N.mul isImage].
  destruct (isImage f) eqn:I; cbn -[N.leb N.mul];
    destruct (N.leb_spec (size f) (50 * 1024 * 1024)) as [L|L]; cbn;
    split; intros H; try reflexivity; try discriminate;
    try (exists f; auto);
    destruct H as (f' & E & I' & L'); injection E as <-;
    try congruence; lia.
Qed.

Lemma elements_ok p l : forall i,
  isOK (fst (elements pictureSchema p i l)) = true <->
  exists fl, l = map FileObj fl /\ Forall validPicture fl.
Proof.
  induction l as [|x l IH]; intros i; simpl.
  - split; [|reflexivity]. intros _. exists []. split; [reflexivity|constructor].
  - pose proof (pictureSchema_ok (p ++ [Index i]) x) as Hx.
    pose proof (IH (S i)) as Hl.
    destruct (pictureSchema (p ++ [Index i]) x) as [r here].
    destruct (elements pictureSchema p (S i) l) as [rs later].
    simpl in *. split.
    + intros H. destruct r, rs; try discriminate.
      destruct (proj1 Hx eq_refl) as (f & -> & Hf).
      destruct (proj1 Hl eq_refl) as (fl & -> & Hfl).
      exists (f :: fl). split; [reflexivity | now constructor].
    + intros (fl & E & Hfl). destruct fl as [|f fl]; [discriminate|].
      simpl in E. injection E as -> ->. inversion Hfl; subst.
      assert (R : isOK r = true) by (apply Hx; eauto).
      assert (RS : isOK rs = true) by (apply Hl; eauto).
      destruct r, rs; try discriminate. reflexivity.
Qed.

Lemma additionalPicturesSchema_ok p v :
  isOK (fst (additionalPicturesSchema p v)) = true <-> additionalPicturesOK v.
Proof.
  unfold additionalPicturesOK.
  destruct v as [| | | | | | |l|];
    try (split; [discriminate
                | intros [E|(l' & E & _)]; discriminate]).
  - split; [now left | reflexivity].
  - unfold additionalPicturesSchema, optional, array.
    pose proof (elements_ok p l 0) as He.
    destruct (elements pictureSchema p 0 l) as [r iss]. simpl in He.
    destruct (Nat.ltb_spec 5 (List.length l)) as [L|L]; simpl; split.
    + destruct r; simpl; discriminate.
    + intros [H|(fl & E & Hn & _)]; [discriminate|].
      injection E as ->. rewrite length_map in L. lia.
    + intros H. destruct r; try discriminate.
      destruct (proj1 He eq_refl) as (fl & -> & Hfl).
      right. exists fl. rewrite length_map in L. auto.
    + intros [H|(fl & E & Hn & Hfl)]; [discriminate|].
      injection E as ->.
      assert (R : isOK r = true) by (apply He; eauto).
      destruct r; try discriminate. reflexivity.
Qed.

End Acceptance.

Section Success.
Import Zod Resolver.

Lemma safeParse_inl {I A} (S : Schema I A) (x : I) :
  (exists v, safeParse S x = inl v) <-> isOK (fst (S [] x)) = true.
Proof.
  unfold safeParse. destruct (S [] x) as [[|v|v] iss]; simpl; split;
    try discriminate; try (intros [w H]; discriminate); eauto.
Qed.

Lemma formObject_isOK created d :
  isOK (fst (formObject created [] d)) = true <->
  isOK (fst (nameSchema [Field "name"] (Draft.name d))) = true /\
  isOK (fst (ageSchema [Field "age"] (Draft.age d))) = true /\
  isOK (fst (phoneSchema [Field "phone"] (Draft.phone d))) = true /\
  isOK (fst (websiteSchema [Field "website"] (Draft.website d))) = true /\
  isOK (fst (dateOfBirthSchema created [Field "dateOfBirth"]
                               (Draft.dateOfBirth d))) = true /\
  isOK (fst (avatarSchema [Field "avatar"] (Draft.avatar d))) = true /\
  isOK (fst (additionalPicturesSchema [Field "additionalPictures"]
                                      (Draft.additionalPictures d))) = true.
Proof.
  unfold formObject. rewrite isOK_mapResult, !isOK_both, !andb_true_iff.
  cbn [app]. tauto.
Qed.

Lemma formSchema_isOK created now d :
  isOK (fst (formSchema created now [] d)) = true <->
  isOK (fst (formObject created [] d)) = true /\ crossIssues created now d = [].
Proof.
  unfold formSchema, superRefine, crossIssues, crossFieldCheck.
  destruct (formObject created [] d) as [[|v|v] iss]; simpl;
    try (split; [discriminate | intros [H _]; discriminate]);
    destruct (strictEq _ _); simpl; split; try discriminate; auto;
    intros [H1 H2]; discriminate.
Qed.

Lemma isOK_valueOf {A} (r : ParseReturn A) : isOK r = true -> valueOf r <> None.
Proof. destruct r; simpl; discriminate. Qed.

(** The schema lets a draft through exactly when every key meets its rule
    and the age equals the floor of the years since the date of birth. *)
Theorem validation_succeeds_iff created now d :
  (Z.abs (created - 10 * 365 * 24 * 60 * 60 * 1000) <= 8640000000000000)%Z ->
  (exists v, safeParse (formSchema created now) d = inl v) <->
  acceptable created now d.
Proof.
  intros Hr. rewrite safeParse_inl, formSchema_isOK, formObject_isOK.
  rewrite nameSchema_ok, ageSchema_ok, phoneSchema_ok, websiteSchema_ok,
    (dateOfBirthSchema_ok _ _ _ Hr), avatarSchema_ok, additionalPicturesSchema_ok.
  unfold acceptable. split.
  - intros [(Hn & Ha & Hp & Hw & Hd & Hv & Hx) Hc].
    repeat (split; [assumption|]).
    destruct Ha as (a & Ea & Hnan & Hlt). destruct Hd as (t & Et & Hle).
    exists a, t. repeat (split; [assumption|]).
    assert (Hok : isOK (fst (formObject created [] d)) = true).
    { apply formObject_isOK.
      rewrite nameSchema_ok, ageSchema_ok, phoneSchema_ok, websiteSchema_ok,
        (dateOfBirthSchema_ok _ _ _ Hr), avatarSchema_ok,
        additionalPicturesSchema_ok.
      repeat split; try assumption; [exists a | exists t]; auto. }
    destruct (crossIssues_eq created now d a t Ea Et (isOK_valueOf _ Hok))
      as (_ & _ & Hx').
    rewrite Hx' in Hc. now destruct (strictEq a (calculatedAge now t)).
  - intros (Hn & Ha & Hp & Hw & Hd & Hv & Hx & a & t & Ea & Et & Hc).
    split; [repeat split; assumption|].
    assert (Hok : isOK (fst (formObject created [] d)) = true).
    { apply formObject_isOK.
      rewrite nameSchema_ok, ageSchema_ok, phoneSchema_ok, websiteSchema_ok,
        (dateOfBirthSchema_ok _ _ _ Hr), avatarSchema_ok,
        additionalPicturesSchema_ok.
      repeat split; assumption. }
    destruct (crossIssues_eq created now d a t Ea Et (isOK_valueOf _ Hok))
      as (_ & _ & Hx').
    now rewrite Hx', Hc.
Qed.

Lemma validation_succeeds_iff_witness :
  acceptable Sample.loadedAt Sample.loadedAt Sample.filled /\
  ~ acceptable Sample.loadedAt Sample.loadedAt Sample.wrongAge.
Proof.
  assert (Hr : (Z.abs (Sample.loadedAt - 10 * 365 * 24 * 60 * 60 * 1000)
                <= 8640000000000000)%Z) by (vm_compute; discriminate).
  split.
  - apply (validation_succeeds_iff
             Sample.loadedAt Sample.loadedAt Sample.filled Hr).
    eexists. vm_compute. reflexivity.
  - intros H.
    apply (validation_succeeds_iff
             Sample.loadedAt Sample.loadedAt Sample.wrongAge Hr) in H.
    destruct H as [v H]. vm_compute in H. discriminate H.
Defined.

Lemma validated_age_is_integer_witness :
  match safeParse (formSchema Sample.loadedAt Sample.loadedAt) Sample.filled with
  | inl v => Draft.age Sample.filled = Num (FormValues.age v) /\
             isInteger (FormValues.age v) = true /\
             lt (FormValues.age v) (ofZ 10) = false
  | inr _ => False
  end.
Proof.
  destruct (safeParse (formSchema Sample.loadedAt Sample.loadedAt) Sample.filled)
    as [v|iss] eqn:E.
  - exact (validated_age_is_integer
             Sample.loadedAt Sample.loadedAt Sample.filled v E).
  - vm_compute in E. discriminate E.
Defined.

End Success.

(* ------------------------------------------------------------------ *)
(** ** The messages of the single fields, for every draft *)

Section FieldMessages.
Import Zod Resolver.
Variables created now : Z.
Variable d : Draft.t.

(** A phone number that holds a character other than a digit, white space,
    [+], [-], [(] or [)], or that does not end in a digit, is answered by
    'Invalid'. *)
Theorem phone_rejected s :
  Draft.phone d = Str s ->
  s <> EmptyString ->
  allChars phoneChar s = false \/
  (forall c, lastChar s = Some c -> isDigit c = false) ->
  errorMessage created now d "phone" = Some "Invalid".
Proof.
  intros Hd Hne Hbad.
  assert (T : Regex.test phoneRegex s = false).
  { destruct (Regex.test phoneRegex s) eqn:T; [|reflexivity].
    apply test_spec in T. destruct Hbad as [Hc|Hl].
    - rewrite (matches_chars _ _ _ phoneRegex_classes T) in Hc. discriminate.
    - destruct (phoneRegex_last s T) as (c & Hc & Hdig).
      rewrite (Hl c Hc) in Hdig. discriminate. }
  rewrite errorMessage_phone, Hd, phoneSchema_string, T.
  apply String.eqb_neq in Hne. rewrite Hne. reflexivity.
Qed.

(** No phone number, the empty string and every string of digits pass. *)
Theorem phone_accepted :
  Draft.phone d = undefined \/
  Draft.phone d = Str EmptyString \/
  (exists s, Draft.phone d = Str s /\ s <> EmptyString /\
             allChars isDigit s = true) ->
  errorMessage created now d "phone" = None.
Proof.
  intros [H|[H|(s & H & Hne & Hs)]]; rewrite errorMessage_phone, H;
    try reflexivity.
  rewrite phoneSchema_string, (phoneRegex_digits s Hne Hs). reflexivity.
Qed.

(** The website passes when it is empty or when its lower-case form, on
    which the schema applies both rules, holds at least 5 code units and a
    dot; a lower-case form of fewer than 5 is answered by the length
    message, one of at least 5 without a dot by 'Invalid'. *)
Theorem website_rule s :
  Draft.website d = Str s ->
  (errorMessage created now d "website" = None <->
   s = EmptyString \/
   ((5 <= String.length (toLowerCase s))%nat /\
    indexOf (toLowerCase s) "." <> (-1)%Z)) /\
  (s <> EmptyString -> (String.length (toLowerCase s) < 5)%nat ->
   errorMessage created now d "website"
   = Some "Must be a minimum of 5 characters") /\
  ((5 <= String.length (toLowerCase s))%nat ->
   indexOf (toLowerCase s) "." = (-1)%Z ->
   errorMessage created now d "website" = Some "Invalid").
Proof.
  intros Hd. rewrite errorMessage_website, Hd, websiteSchema_lowered.
  destruct (Nat.ltb_spec (String.length (toLowerCase s)) 5) as [L|L];
    destruct (Z.eqb_spec (indexOf (toLowerCase s) ".") (-1)) as [D|D];
    cbn [negb andb];
    destruct (String.eqb_spec s EmptyString) as [E|E];
    cbn; repeat split; intros; try reflexivity; try discriminate;
    try contradiction; try lia; auto;
    try (subst s; simpl in *; lia);
    match goal with
    | H : _ \/ _ |- _ => destruct H as [H|[H1 H2]]; try contradiction; lia
    end.
Qed.

(** The name passes exactly when it is a string that is not empty. *)
Theorem name_rule :
  errorMessage created now d "name" = None <-> nameOK (Draft.name d).
Proof.
  rewrite errorMessage_name. unfold nameOK, nameSchema, Zod.string, invalidType.
  destruct (Draft.name d) as [| | |n|s| | | |];
    try (split; [discriminate | intros (s' & E & _); discriminate]).
  destruct s as [|c s]; cbn; split; intros H; try discriminate.
  - destruct H as (s' & E & Hne). injection E as <-. now elim Hne.
  - eexists. split; [reflexivity | discriminate].
  - reflexivity.
Qed.

(** The messages of the date of birth: 'Required' when it is missing,
    'Invalid date' on an invalid date, the age message on a date later than
    3650 days before the schema was built, none on an earlier one. *)
Theorem dateOfBirth_messages :
  (Z.abs (created - 10 * 365 * 24 * 60 * 60 * 1000) <= 8640000000000000)%Z ->
  (Draft.dateOfBirth d = undefined ->
   errorMessage created now d "dateOfBirth" = Some "Required") /\
  (Draft.dateOfBirth d = DateObj None ->
   errorMessage created now d "dateOfBirth" = Some "Invalid date") /\
  (forall t, Draft.dateOfBirth d = DateObj (Some t) ->
     ((t <= created - 10 * 365 * 24 * 60 * 60 * 1000)%Z ->
      errorMessage created now d "dateOfBirth" = None) /\
     ((created - 10 * 365 * 24 * 60 * 60 * 1000 < t)%Z ->
      errorMessage created now d "dateOfBirth"
      = Some "Must be at least 10 years old")).
Proof.
  intros Hr. rewrite errorMessage_dateOfBirth.
  split; [|split].
  - intros ->. reflexivity.
  - intros ->. reflexivity.
  - intros t ->. destruct (dateOfBirth_rule created [Field "dateOfBirth"] t Hr)
      as [H1 H2].
    split; intros H; [rewrite (H1 H) | rewrite (H2 H)]; reflexivity.
Qed.

End FieldMessages.

Lemma phone_rejected_witness :
  errorMessage Sample.loadedAt Sample.loadedAt
    {| Draft.name := Str "Ada"; Draft.age := Num (ofZ 20);
       Draft.phone := Str "call me"; Draft.website := Str EmptyString;
       Draft.dateOfBirth := DateObj (Some Sample.born2003);
       Draft.avatar := FileObj Sample.photo;
       Draft.additionalPictures := undefined |} "phone"
  = Some "Invalid" /\
  errorMessage Sample.loadedAt Sample.loadedAt
    {| Draft.name := Str "Ada"; Draft.age := Num (ofZ 20);
       Draft.phone := Str "555-"; Draft.website := Str EmptyString;
       Draft.dateOfBirth := DateObj (Some Sample.born2003);
       Draft.avatar := FileObj Sample.photo;
       Draft.additionalPictures := undefined |} "phone"
  = Some "Invalid".
Proof.
  split.
  - apply (phone_rejected Sample.loadedAt Sample.loadedAt _ "call me");
      [reflexivity | discriminate | left; reflexivity].
  - apply (phone_rejected Sample.loadedAt Sample.loadedAt _ "555-");
      [reflexivity | discriminate |].
    right. intros c H. injection H as <-. reflexivity.
Defined.

Lemma phone_accepted_witness :
  errorMessage Sample.loadedAt Sample.loadedAt Sample.filled "phone" = None /\
  errorMessage Sample.loadedAt Sample.loadedAt
    {| Draft.name := Str "Ada"; Draft.age := Num (ofZ 20);
       Draft.phone := Str "5551234"; Draft.website := Str EmptyString;
       Draft.dateOfBirth := DateObj (Some Sample.born2003);
       Draft.avatar := FileObj Sample.photo;
       Draft.additionalPictures := undefined |} "phone"
  = None.
Proof.
  split.
  - apply (phone_accepted Sample.loadedAt Sample.loadedAt Sample.filled).
    right. left. reflexivity.
  - apply (phone_accepted Sample.loadedAt Sample.loadedAt).
    right. right. exists "5551234".
    split; [reflexivity | split; [discriminate | reflexivity]].
Defined.

Lemma website_rule_witness :
  errorMessage Sample.loadedAt Sample.loadedAt
               (Draft.set_website (Str "Example.COM") Sample.filled) "website"
  = None /\
  errorMessage Sample.loadedAt Sample.loadedAt
               (Draft.set_website (Str "a.b") Sample.filled) "website"
  = Some "Must be a minimum of 5 characters" /\
  errorMessage Sample.loadedAt Sample.loadedAt
               (Draft.set_website (Str "localhost") Sample.filled) "website"
  = Some "Invalid".
Proof.
  split; [|split].
  - apply (proj1 (website_rule Sample.loadedAt Sample.loadedAt
                    (Draft.set_website (Str "Example.COM") Sample.filled)
                    "Example.COM" eq_refl)).
    right. split; [simpl; lia | vm_compute; discriminate].
  - apply (proj1 (proj2 (website_rule Sample.loadedAt Sample.loadedAt
                    (Draft.set_website (Str "a.b") Sample.filled)
                    "a.b" eq_refl))); [discriminate | simpl; lia].
  - apply (proj2 (proj2 (website_rule Sample.loadedAt Sample.loadedAt
                    (Draft.set_website (Str "localhost") Sample.filled)
                    "localhost" eq_refl))); [simpl; lia | reflexivity].
Defined.

Lemma dateOfBirth_messages_witness :
  errorMessage Sample.loadedAt Sample.loadedAt Sample.halfAge "dateOfBirth"
  = Some "Required" /\
  errorMessage Sample.loadedAt Sample.loadedAt Sample.filled "dateOfBirth"
  = None /\
  errorMessage Sample.loadedAt Sample.loadedAt Sample.justTen "dateOfBirth"
  = Some "Must be at least 10 years old".
Proof.
  assert (Hr : (Z.abs (Sample.loadedAt - 10 * 365 * 24 * 60 * 60 * 1000)
                <= 8640000000000000)%Z) by (vm_compute; discriminate).
  split; [|split].
  - apply (proj1 (dateOfBirth_messages
                    Sample.loadedAt Sample.loadedAt Sample.halfAge Hr)).
    reflexivity.
  - apply (proj2 (proj2 (dateOfBirth_messages
                    Sample.loadedAt Sample.loadedAt Sample.filled Hr))
             Sample.born2003 eq_refl).
    vm_compute. discriminate.
  - apply (proj2 (proj2 (dateOfBirth_messages
                    Sample.loadedAt Sample.loadedAt Sample.justTen Hr))
             Sample.born2014 eq_refl).
    reflexivity.
Defined.

(* ------------------------------------------------------------------ *)
(** ** When the cross-field check does not run *)

Section CrossFieldSkipped.
Import Zod Resolver.
Variables created now : Z.
Variable d : Draft.t.

Lemma ageSchema_codes p v :
  Forall (fun e => code e <> custom) (snd (ageSchema p v)).
Proof.
  unfold ageSchema, Zod.number, numberChecks, invalidType.
  destruct v as [| | |n| | | | |];
    try (constructor; [discriminate | constructor]).
  destruct n as [|s|q]; try (constructor; [discriminate | constructor]);
    destruct (lt _ (ofZ 10)); simpl; repeat constructor; discriminate.
Qed.

Lemma offPath_not_mismatch l :
  Forall (offPath [Field "age"]) l -> ~ In ageMismatchIssue l.
Proof.
  intros H Hin. rewrite Forall_forall in H.
  destruct (H _ Hin) as [E _]. discriminate E.
Qed.

Lemma mismatch_not_in_object : ~ In ageMismatchIssue (snd (formObject created [] d)).
Proof.
  rewrite formObject_issues. intros H.
  apply in_app_or in H. destruct H as [H|H].
  { revert H. apply offPath_not_mismatch.
    eapply block_off; [apply good_name | discriminate]. }
  apply in_app_or in H. destruct H as [H|H].
  { pose proof (ageSchema_codes [Field "age"] (Draft.age d)) as C.
    rewrite Forall_forall in C. now apply (C _ H). }
  revert H. apply offPath_not_mismatch.
  repeat (apply Forall_app; split);
    (eapply block_off;
     [ first [ apply good_phone | apply good_website | apply good_dateOfBirth
             | apply good_avatar | apply good_additionalPictures ]
     | discriminate ]).
Qed.

(** With no avatar chosen, a name that is no string, an age that is no
    number or a date of birth that is no valid date, validation fails and no
    'Age must match date of birth' issue is filed, whatever the age. *)
Theorem crossField_needs_every_key :
  (forall f, Draft.avatar d <> FileObj f) \/
  (forall s, Draft.name d <> Str s) \/
  (forall n, n <> NaN -> Draft.age d <> Num n) \/
  (forall t, Draft.dateOfBirth d <> DateObj (Some t)) ->
  ~ In ageMismatchIssue (issuesOf created now d) /\
  exists issues, safeParse (formSchema created now) d = inr issues.
Proof.
  intros H.
  assert (A : valueOf (fst (formObject created [] d)) = None).
  { apply formObject_aborted_iff.
    destruct H as [H|[H|[H|H]]].
    - do 5 right. left. unfold avatarSchema, refine, superRefine, instanceofFile.
      destruct (Draft.avatar d) as [| | | | | |f| |]; try reflexivity.
      now elim (H f).
    - left. unfold nameSchema, Zod.string.
      destruct (Draft.name d) as [| | | |s| | | |]; try reflexivity.
      now elim (H s).
    - right. left. unfold ageSchema, Zod.number.
      destruct (Draft.age d) as [| | |n| | | | |]; try reflexivity.
      destruct n as [|s|q]; try reflexivity;
        [elim (H (Infinity s)) | elim (H (Finite q))]; (discriminate || reflexivity).
    - do 4 right. left. unfold dateOfBirthSchema, Zod.date.
      destruct (Draft.dateOfBirth d) as [| | | | |[t|]| | |]; try reflexivity.
      now elim (H t). }
  split.
  - rewrite issuesOf_eq, (crossField_skipped_on_abort created now d A).
    apply mismatch_not_in_object.
  - unfold safeParse, formSchema, superRefine.
    destruct (formObject created [] d) as [[|v|v] iss]; try discriminate.
    eauto.
Qed.

End CrossFieldSkipped.

Lemma crossField_needs_every_key_witness :
  ~ In ageMismatchIssue
       (issuesOf Sample.loadedAt Sample.loadedAt
                 (Draft.set_name undefined Sample.wrongAge)) /\
  ~ In ageMismatchIssue
       (issuesOf Sample.loadedAt Sample.loadedAt Sample.wrongAgeNoAvatar).
Proof.
  split.
  - apply (crossField_needs_every_key Sample.loadedAt Sample.loadedAt
             (Draft.set_name undefined Sample.wrongAge)).
    right. left. intros s. discriminate.
  - apply (crossField_needs_every_key Sample.loadedAt Sample.loadedAt
             Sample.wrongAgeNoAvatar).
    left. intros f. discriminate.
Defined.

(* ------------------------------------------------------------------ *)
(** ** The issues of single pictures (lines 36-45) *)

Section Pictures.
Import Zod Resolver.

Lemma path_eqb_longer p k r : path_eqb p (p ++ k :: r) = false.
Proof.
  induction p as [|a p IH]; simpl; [reflexivity|].
  rewrite IH. apply andb_false_r.
Qed.

Lemma under_longer_off p k e : under (p ++ [k]) e -> offPath p e.
Proof.
  intros [[q Hq] Hn]. split.
  - rewrite Hq, <- app_assoc. apply path_eqb_longer.
  - eapply Forall_impl; [|exact Hn]. intros x [r Hr].
    rewrite Hr, <- app_assoc. apply path_eqb_longer.
Qed.

Lemma elements_off p l : forall k,
  Forall (offPath p) (snd (elements pictureSchema p k l)).
Proof.
  induction l as [|x l IH]; intros k; simpl; [constructor|].
  pose proof (good_picture (p ++ [Index k]) x) as [G _].
  specialize (IH (S k)).
  destruct (pictureSchema (p ++ [Index k]) x) as [r here].
  destruct (elements pictureSchema p (S k) l) as [rs later]. simpl in *.
  apply Forall_app. split; [|exact IH].
  eapply Forall_impl; [|exact G]. intros e. apply under_longer_off.
Qed.

Lemma pictureSchema_notImage q f :
  isImage f = false ->
  In (issue custom q "Invalid file type") (snd (pictureSchema q (FileObj f))).
Proof.
  intros Hf. unfold pictureSchema, refine, superRefine, instanceofFile.
  cbn -[N.leb N.mul isImage]. rewrite Hf. cbn -[N.leb N.mul].
  destruct (size f <=? 50 * 1024 * 1024)%N; cbn; rewrite ?app_nil_r;
    now left.
Qed.

Lemma pictureSchema_tooLarge q f :
  (50 * 1024 * 1024 < size f)%N ->
  In (issue custom q "Image size must be less than 50MB")
     (snd (pictureSchema q (FileObj f))).
Proof.
  intros Hf. apply N.leb_gt in Hf.
  unfold pictureSchema, refine, superRefine, instanceofFile.
  cbn -[N.leb N.mul isImage].
  destruct (isImage f); cbn -[N.leb N.mul]; rewrite Hf; cbn;
    rewrite ?app_nil_r; [now left | right; now left].
Qed.

Lemma elements_In p l e f : forall i k,
  nth_error l i = Some f ->
  (forall q, In (e q) (snd (pictureSchema q (FileObj f)))) ->
  In (e (p ++ [Index (k + i)]))
     (snd (elements pictureSchema p k (map FileObj l))).
Proof.
  induction l as [|x l IH]; intros i k Hn He; [destruct i; discriminate|].
  simpl.
  destruct (pictureSchema (p ++ [Index k]) (FileObj x)) as [r here] eqn:Ex.
  destruct (elements pictureSchema p (S k) (map FileObj l)) as [rs later] eqn:El.
  simpl. apply in_or_app.
  destruct i as [|i]; simpl in Hn.
  - injection Hn as ->. left. rewrite Nat.add_0_r.
    specialize (He (p ++ [Index k])). now rewrite Ex in He.
  - right. specialize (IH i (S k) Hn He). rewrite El in IH.
    now rewrite Nat.add_succ_r.
Qed.

Variables created now : Z.
Variable d : Draft.t.

Lemma picture_issue_filed l e f i :
  Draft.additionalPictures d = Arr (map FileObj l) ->
  nth_error l i = Some f ->
  (forall q, In (e q) (snd (pictureSchema q (FileObj f)))) ->
  In (e [Field "additionalPictures"; Index i]) (issuesOf created now d).
Proof.
  intros Hd Hn He.
  rewrite issuesOf_eq, formSchema_issues, formObject_issues, Hd.
  apply in_or_app. left.
  do 6 (apply in_or_app; right).
  unfold additionalPicturesSchema, optional, array.
  pose proof (elements_In [Field "additionalPictures"] l e f i 0 Hn He) as H.
  destruct (elements pictureSchema [Field "additionalPictures"] 0
                     (map FileObj l)) as [r iss].
  destruct (5 <? List.length (map FileObj l))%nat; simpl in *;
    [right; exact H | exact H].
Qed.

(** A picture that is no image is answered by an issue at its own index,
    and so is one above 50MB; validation fails, and when the list holds 5
    files or fewer nothing is attached to the list itself, whose message is
    the one the component renders. *)
Theorem additionalPictures_element_issues l f i :
  Draft.additionalPictures d = Arr (map FileObj l) ->
  nth_error l i = Some f ->
  (isImage f = false ->
   In (issue custom [Field "additionalPictures"; Index i] "Invalid file type")
      (issuesOf created now d)) /\
  ((50 * 1024 * 1024 < size f)%N ->
   In (issue custom [Field "additionalPictures"; Index i]
             "Image size must be less than 50MB")
      (issuesOf created now d)) /\
  ((List.length l <= 5)%nat ->
   errorMessage created now d "additionalPictures" = None).
Proof.
  intros Hd Hn. split; [|split].
  - intros Hf.
    apply (picture_issue_filed l (fun q => issue custom q "Invalid file type")
                               f i Hd Hn).
    intros q. now apply pictureSchema_notImage.
  - intros Hf.
    apply (picture_issue_filed
             l (fun q => issue custom q "Image size must be less than 50MB")
             f i Hd Hn).
    intros q. now apply pictureSchema_tooLarge.
  - intros Hl. rewrite errorMessage_additionalPictures, Hd.
    unfold additionalPicturesSchema, optional, array.
    pose proof (elements_off [Field "additionalPictures"] (map FileObj l) 0) as H.
    destruct (elements pictureSchema [Field "additionalPictures"] 0
                       (map FileObj l)) as [r iss].
    rewrite length_map. apply Nat.ltb_ge in Hl. rewrite Hl.
    simpl in *. now rewrite visited_off.
Qed.

End Pictures.

Lemma additionalPictures_element_issues_witness :
  In (Zod.issue Zod.custom
                [Zod.Field "additionalPictures"; Zod.Index 1] "Invalid file type")
     (issuesOf Sample.loadedAt Sample.loadedAt
        (Draft.set_additionalPictures
           (Arr (map FileObj [Sample.photo; Sample.report])) Sample.filled)) /\
  errorMessage Sample.loadedAt Sample.loadedAt
    (Draft.set_additionalPictures
       (Arr (map FileObj [Sample.photo; Sample.report])) Sample.filled)
    "additionalPictures"
  = None.
Proof.
  split.
  - apply (proj1 (additionalPictures_element_issues
                    Sample.loadedAt Sample.loadedAt
                    (Draft.set_additionalPictures
                       (Arr (map FileObj [Sample.photo; Sample.report]))
                       Sample.filled)
                    [Sample.photo; Sample.report] Sample.report 1
                    eq_refl eq_refl)).
    reflexivity.
  - apply (proj2 (proj2 (additionalPictures_element_issues
                    Sample.loadedAt Sample.loadedAt
                    (Draft.set_additionalPictures
                       (Arr (map FileObj [Sample.photo; Sample.report]))
                       Sample.filled)
                    [Sample.photo; Sample.report] Sample.report 1
                    eq_refl eq_refl))).
    simpl. lia.
Defined.

(* ------------------------------------------------------------------ *)
(** ** What the handlers do to the previews and to the object-URL store *)

Section Handlers.

Lemma mapM_createObjectURL_spec (k : list File) : forall s,
  mapM createObjectURL k s =
  (Normal (map blob (seq (List.length (objectURLs s)) (List.length k))),
   {| fieldValues := fieldValues s;
      avatarPreview := avatarPreview s;
      additionalPicturesPreviews := additionalPicturesPreviews s;
      objectURLs := objectURLs s ++ k |}).
Proof.
  induction k as [|x k IH]; intros s.
  - destruct s. simpl. unfold ret. now rewrite app_nil_r.
  - simpl. unfold bind at 1. cbn [createObjectURL].
    unfold bind at 1. rewrite IH. unfold ret. cbn.
    now rewrite length_app, Nat.add_1_r, <- app_assoc.
Qed.

Lemma additionalPictures_onChange_images_eq files st :
  files <> [] ->
  forallb isImage files = true ->
  additionalPictures_onChange (Some files) st
  = (Normal tt,
     {| fieldValues :=
          Draft.set_additionalPictures (Arr (map FileObj files)) (fieldValues st);
        avatarPreview := avatarPreview st;
        additionalPicturesPreviews :=
          Some (map blob (seq (List.length (objectURLs st)) (List.length files)));
        objectURLs := objectURLs st ++ files |}).
Proof.
  intros Hne Hall. unfold additionalPictures_onChange.
  unfold bind at 1. cbn [onChange_additionalPictures].
  unfold isImage in Hall. rewrite Hall. cbn [negb].
  destruct files as [|f files]; [contradiction|].
  cbn [List.length Nat.eqb negb].
  unfold bind. rewrite mapM_createObjectURL_spec. reflexivity.
Qed.

Lemma additionalPictures_onChange_rejected_eq files st :
  forallb isImage files = false ->
  additionalPictures_onChange (Some files) st
  = (Normal tt,
     {| fieldValues :=
          Draft.set_additionalPictures (Arr (map FileObj files)) (fieldValues st);
        avatarPreview := avatarPreview st;
        additionalPicturesPreviews := additionalPicturesPreviews st;
        objectURLs := objectURLs st |}).
Proof.
  intros Hall. unfold additionalPictures_onChange.
  unfold bind at 1. cbn [onChange_additionalPictures].
  unfold isImage in Hall. now rewrite Hall.
Qed.

Lemma avatar_onChange_image_eq f rest st :
  isImage f = true ->
  avatar_onChange (Some (f :: rest)) st
  = (Normal tt,
     {| fieldValues := Draft.set_avatar (FileObj f) (fieldValues st);
        avatarPreview := Some (blob (List.length (objectURLs st)));
        additionalPicturesPreviews := additionalPicturesPreviews st;
        objectURLs := objectURLs st ++ [f] |}).
Proof.
  intros Hf. unfold avatar_onChange, bind, onChange_avatar, typeOf, ret. simpl.
  unfold isImage in Hf. now rewrite Hf.
Qed.

Lemma avatar_onChange_rejected_eq f rest st :
  isImage f = false ->
  avatar_onChange (Some (f :: rest)) st
  = (Normal tt,
     {| fieldValues := Draft.set_avatar (FileObj f) (fieldValues st);
        avatarPreview := avatarPreview st;
        additionalPicturesPreviews := additionalPicturesPreviews st;
        objectURLs := objectURLs st |}).
Proof.
  intros Hf. unfold avatar_onChange, bind, onChange_avatar, typeOf, ret. simpl.
  unfold isImage in Hf. now rewrite Hf.
Qed.

(** A selection of images only, not empty: the form takes the files, every
    file gets a fresh object URL appended to the store, in order, and the
    previews are exactly these URLs, each resolving to its file. *)
Theorem additionalPictures_onChange_images files st :
  files <> [] ->
  forallb isImage files = true ->
  additionalPictures_onChange (Some files) st
  = (Normal tt,
     {| fieldValues :=
          Draft.set_additionalPictures (Arr (map FileObj files)) (fieldValues st);
        avatarPreview := avatarPreview st;
        additionalPicturesPreviews :=
          Some (map blob (seq (List.length (objectURLs st)) (List.length files)));
        objectURLs := objectURLs st ++ files |}) /\
  forall i f, nth_error files i = Some f ->
    resolve (snd (additionalPictures_onChange (Some files) st))
            (blob (List.length (objectURLs st) + i)) = Some f.
Proof.
  intros Hne Hall.
  pose proof (additionalPictures_onChange_images_eq files st Hne Hall) as E.
  split; [exact E|].
  intros i f Hf. rewrite E. cbn [snd resolve objectURLs].
  rewrite nth_error_app2 by lia.
  now replace (List.length (objectURLs st) + i - List.length (objectURLs st))%nat
    with i by lia.
Qed.

(** A selection with a file that is no image: the form takes the files, the
    previews of both inputs and the store stay as they were, and validation
    files 'Invalid file type' at the index of that file. *)
Theorem additionalPictures_onChange_not_all_images created now files st i f :
  nth_error files i = Some f ->
  isImage f = false ->
  additionalPictures_onChange (Some files) st
  = (Normal tt,
     {| fieldValues :=
          Draft.set_additionalPictures (Arr (map FileObj files)) (fieldValues st);
        avatarPreview := avatarPreview st;
        additionalPicturesPreviews := additionalPicturesPreviews st;
        objectURLs := objectURLs st |}) /\
  In (Zod.issue Zod.custom
                [Zod.Field "additionalPictures"; Zod.Index i] "Invalid file type")
     (issuesOf created now
        (fieldValues (snd (additionalPictures_onChange (Some files) st)))).
Proof.
  intros Hn Hf.
  assert (Hall : forallb isImage files = false).
  { destruct (forallb isImage files) eqn:E; [|reflexivity].
    rewrite forallb_forall in E.
    rewrite (E f (nth_error_In _ _ Hn)) in Hf. discriminate. }
  rewrite (additionalPictures_onChange_rejected_eq files st Hall).
  split; [reflexivity|]. cbn [snd fieldValues].
  apply (picture_issue_filed created now _ files
           (fun q => Zod.issue Zod.custom q "Invalid file type") f i);
    [reflexivity | exact Hn |].
  intros q. now apply pictureSchema_notImage.
Qed.

(** An empty selection clears the previews of the additional pictures and
    hands the empty list to the form, which validates it; the avatar preview
    and the store are untouched. *)
Theorem additionalPictures_onChange_empty created now st :
  additionalPictures_onChange (Some []) st
  = (Normal tt,
     {| fieldValues := Draft.set_additionalPictures (Arr []) (fieldValues st);
        avatarPreview := avatarPreview st;
        additionalPicturesPreviews := None;
        objectURLs := objectURLs st |}) /\
  errorMessage created now
    (fieldValues (snd (additionalPictures_onChange (Some []) st)))
    "additionalPictures" = None.
Proof.
  split; [reflexivity|].
  now rewrite errorMessage_additionalPictures.
Qed.

(** Choosing an image as avatar: the form takes the file, a fresh object URL
    is appended to the store and becomes the preview, and it resolves to
    the file; the previews of the additional pictures are untouched. *)
Theorem avatar_onChange_image f rest st :
  isImage f = true ->
  avatar_onChange (Some (f :: rest)) st
  = (Normal tt,
     {| fieldValues := Draft.set_avatar (FileObj f) (fieldValues st);
        avatarPreview := Some (blob (List.length (objectURLs st)));
        additionalPicturesPreviews := additionalPicturesPreviews st;
        objectURLs := objectURLs st ++ [f] |}) /\
  resolve (snd (avatar_onChange (Some (f :: rest)) st))
          (blob (List.length (objectURLs st))) = Some f.
Proof.
  intros Hf. pose proof (avatar_onChange_image_eq f rest st Hf) as E.
  split; [exact E|]. rewrite E. cbn [snd resolve objectURLs].
  rewrite nth_error_app2 by lia. now rewrite Nat.sub_diag.
Qed.

(** The state after an event, case by case. *)
Lemma avatar_onChange_cases files st :
  let st' := snd (avatar_onChange files st) in
  additionalPicturesPreviews st' = additionalPicturesPreviews st /\
  ((avatarPreview st' = avatarPreview st /\ objectURLs st' = objectURLs st) \/
   (exists f, avatarPreview st' = Some (blob (List.length (objectURLs st))) /\
              objectURLs st' = objectURLs st ++ [f])).
Proof.
  destruct files as [[|f rest]|]; cbn zeta.
  - split; [reflexivity | left; split; reflexivity].
  - destruct (isImage f) eqn:Hf.
    + rewrite (avatar_onChange_image_eq f rest st Hf).
      split; [reflexivity | right; now exists f].
    + rewrite (avatar_onChange_rejected_eq f rest st Hf).
      split; [reflexivity | left; split; reflexivity].
  - split; [reflexivity | left; split; reflexivity].
Qed.

Lemma additionalPictures_onChange_cases files st :
  let st' := snd (additionalPictures_onChange files st) in
  avatarPreview st' = avatarPreview st /\
  ((additionalPicturesPreviews st' = additionalPicturesPreviews st /\
    objectURLs st' = objectURLs st) \/
   (additionalPicturesPreviews st' = None /\ objectURLs st' = objectURLs st) \/
   (exists l, additionalPicturesPreviews st'
              = Some (map blob (seq (List.length (objectURLs st)) (List.length l))) /\
              objectURLs st' = objectURLs st ++ l)).
Proof.
  destruct files as [l|]; cbn zeta.
  - destruct (forallb isImage l) eqn:Hall.
    + destruct l as [|f l].
      * split; [reflexivity | right; left; split; reflexivity].
      * rewrite (additionalPictures_onChange_images_eq (f :: l) st)
          by (discriminate || exact Hall).
        split; [reflexivity | right; right; now exists (f :: l)].
    + rewrite (additionalPictures_onChange_rejected_eq l st Hall).
      split; [reflexivity | left; split; reflexivity].
  - split; [reflexivity | left; split; reflexivity].
Qed.

Lemma resolve_grows st st' added u f :
  objectURLs st' = objectURLs st ++ added ->
  resolve st u = Some f -> resolve st' u = Some f.
Proof.
  intros E. destruct u as [i]. unfold resolve. rewrite E. intros H.
  rewrite nth_error_app1; [exact H|].
  apply nth_error_Some. now rewrite H.
Qed.

(** No handler ever releases an object URL: whatever resolved before an
    event resolves to the same file after it. *)
Theorem object_urls_are_never_released files st u f :
  resolve st u = Some f ->
  resolve (snd (avatar_onChange files st)) u = Some f /\
  resolve (snd (additionalPictures_onChange files st)) u = Some f.
Proof.
  intros H. split.
  - destruct (avatar_onChange_cases files st) as [_ [[_ E]|(g & _ & E)]].
    + apply (resolve_grows st _ []); [now rewrite app_nil_r | exact H].
    + now apply (resolve_grows st _ [g]).
  - destruct (additionalPictures_onChange_cases files st)
      as [_ [[_ E]|[[_ E]|(l & _ & E)]]].
    + apply (resolve_grows st _ []); [now rewrite app_nil_r | exact H].
    + apply (resolve_grows st _ []); [now rewrite app_nil_r | exact H].
    + now apply (resolve_grows st _ l).
Qed.

(** Both handlers keep every rendered preview resolvable. *)
Theorem previews_stay_resolvable files st :
  previewsResolve st ->
  previewsResolve (snd (avatar_onChange files st)) /\
  previewsResolve (snd (additionalPictures_onChange files st)).
Proof.
  intros [Ha Hp]. split.
  - destruct (avatar_onChange_cases files st) as [Ep [[Ea E]|(g & Ea & E)]];
      split.
    + intros i Hi. rewrite E. apply Ha. now rewrite <- Ea.
    + intros l i Hl Hin. rewrite E. apply (Hp l); [now rewrite <- Ep | exact Hin].
    + intros i Hi. rewrite Ea in Hi. injection Hi as <-.
      rewrite E, length_app. simpl. lia.
    + intros l i Hl Hin. rewrite E, length_app.
      assert (i < List.length (objectURLs st))%nat
        by (apply (Hp l); [now rewrite <- Ep | exact Hin]).
      lia.
  - destruct (additionalPictures_onChange_cases files st)
      as [Ea [[Ep E]|[[Ep E]|(k & Ep & E)]]]; split.
    + intros i Hi. rewrite E. apply Ha. now rewrite <- Ea.
    + intros l i Hl Hin. rewrite E. apply (Hp l); [now rewrite <- Ep | exact Hin].
    + intros i Hi. rewrite E. apply Ha. now rewrite <- Ea.
    + intros l i Hl. rewrite Ep in Hl. discriminate.
    + intros i Hi. rewrite E, length_app.
      assert (i < List.length (objectURLs st))%nat
        by (apply Ha; now rewrite <- Ea).
      lia.
    + intros l i Hl Hin. rewrite Ep in Hl. injection Hl as <-.
      apply in_map_iff in Hin. destruct Hin as (j & Hj & Hin).
      injection Hj as ->. apply in_seq in Hin.
      rewrite E, length_app. lia.
Qed.

(** Neither handler writes a key of the form other than its own. *)
Theorem handlers_write_their_own_key files st :
  (let d' := fieldValues (snd (avatar_onChange files st)) in
   Draft.name d' = Draft.name (fieldValues st) /\
   Draft.age d' = Draft.age (fieldValues st) /\
   Draft.phone d' = Draft.phone (fieldValues st) /\
   Draft.website d' = Draft.website (fieldValues st) /\
   Draft.dateOfBirth d' = Draft.dateOfBirth (fieldValues st) /\
   Draft.additionalPictures d' = Draft.additionalPictures (fieldValues st)) /\
  (let d' := fieldValues (snd (additionalPictures_onChange files st)) in
   Draft.name d' = Draft.name (fieldValues st) /\
   Draft.age d' = Draft.age (fieldValues st) /\
   Draft.phone d' = Draft.phone (fieldValues st) /\
   Draft.website d' = Draft.website (fieldValues st) /\
   Draft.dateOfBirth d' = Draft.dateOfBirth (fieldValues st) /\
   Draft.avatar d' = Draft.avatar (fieldValues st)).
Proof.
  split; cbn zeta.
  - destruct files as [[|f rest]|]; try (repeat split; reflexivity).
    destruct (isImage f) eqn:Hf;
      [rewrite (avatar_onChange_image_eq f rest st Hf)
      | rewrite (avatar_onChange_rejected_eq f rest st Hf)];
      repeat split; reflexivity.
  - destruct files as [l|]; try (repeat split; reflexivity).
    destruct (forallb isImage l) eqn:Hall.
    + destruct l as [|f l]; [repeat split; reflexivity|].
      rewrite (additionalPictures_onChange_images_eq (f :: l) st)
        by (discriminate || exact Hall).
      repeat split; reflexivity.
    + rewrite (additionalPictures_onChange_rejected_eq l st Hall).
      repeat split; reflexivity.
Qed.

End Handlers.

Lemma additionalPictures_onChange_images_witness :
  additionalPicturesPreviews
    (snd (additionalPictures_onChange
            (Some [Sample.photo; Sample.hugePhoto]) Sample.initial))
  = Some [blob 1; blob 2] /\
  resolve (snd (additionalPictures_onChange
                  (Some [Sample.photo; Sample.hugePhoto]) Sample.initial))
          (blob 2)
  = Some Sample.hugePhoto.
Proof.
  destruct (additionalPictures_onChange_images
              [Sample.photo; Sample.hugePhoto] Sample.initial) as [E R];
    [discriminate | reflexivity |].
  split.
  - rewrite E. reflexivity.
  - exact (R 1%nat Sample.hugePhoto eq_refl).
Defined.

Lemma additionalPictures_onChange_not_all_images_witness :
  additionalPicturesPreviews
    (snd (additionalPictures_onChange
            (Some [Sample.photo; Sample.report]) Sample.initial))
  = None /\
  objectURLs
    (snd (additionalPictures_onChange
            (Some [Sample.photo; Sample.report]) Sample.initial))
  = [Sample.photo].
Proof.
  destruct (additionalPictures_onChange_not_all_images
              Sample.loadedAt Sample.loadedAt
              [Sample.photo; Sample.report] Sample.initial 1 Sample.report
              eq_refl eq_refl) as [E _].
  rewrite E. split; reflexivity.
Defined.

Lemma avatar_onChange_image_witness :
  avatarPreview (snd (avatar_onChange (Some [Sample.hugePhoto]) Sample.initial))
  = Some (blob 1) /\
  resolve (snd (avatar_onChange (Some [Sample.hugePhoto]) Sample.initial))
          (blob 1)
  = Some Sample.hugePhoto.
Proof.
  destruct (avatar_onChange_image Sample.hugePhoto [] Sample.initial eq_refl)
    as [E R].
  split; [rewrite E; reflexivity | exact R].
Defined.

Lemma object_urls_are_never_released_witness :
  resolve Sample.initial (blob 0) = Some Sample.photo /\
  resolve (snd (avatar_onChange (Some [Sample.hugePhoto]) Sample.initial))
          (blob 0)
  = Some Sample.photo.
Proof.
  split; [reflexivity|].
  apply (object_urls_are_never_released
           (Some [Sample.hugePhoto]) Sample.initial (blob 0) Sample.photo).
  reflexivity.
Defined.

Lemma previews_stay_resolvable_witness :
  previewsResolve Sample.initial /\
  previewsResolve
    (snd (additionalPictures_onChange
            (Some [Sample.photo; Sample.hugePhoto]) Sample.initial)).
Proof.
  assert (H : previewsResolve Sample.initial).
  { split.
    - intros i E. injection E as <-. simpl. lia.
    - intros l i E. discriminate E. }
  split; [exact H|].
  apply (previews_stay_resolvable
           (Some [Sample.photo; Sample.hugePhoto]) Sample.initial H).
Defined.

(* ------------------------------------------------------------------ *)
(** ** What the age input hands to the schema (lines 93-95) *)

Section AgeInput.
Import Zod Resolver.





(** Beyond 2^53 the digits are rounded, and from about 310 digits on the
    result is infinite. *)
Lemma parseInt_rounds :
  parseInt "9007199254740993" = ofZ 9007199254740992 /\
  parseInt "9007199254740995" = ofZ 9007199254740996 /\
  parseInt "100000000000000000000000" = ofZ 99999999999999991611392 /\
  parseInt (String "1" (string_of_list_ascii (repeat "0"%char 309)))
  = Infinity false.
Proof. repeat split; vm_compute; reflexivity. Qed.

Variables created now : Z.
Variable d : Draft.t.

(** The message under the age input after typing [v]: 'Required' for an
    empty input, 'Expected number, received nan' when the text does not
    start with a number, 'Must be at least 10 years old' below 10. *)
Theorem age_input_messages v :
  Draft.age d = age_setValueAs v ->
  (v = EmptyString -> errorMessage created now d "age" = Some "Required") /\
  (v <> EmptyString -> parseInt v = NaN ->
   errorMessage created now d "age" = Some "Expected number, received nan") /\
  (forall k, v <> EmptyString -> parseInt v = ofZ k -> (k < 10)%Z ->
   errorMessage created now d "age" = Some "Must be at least 10 years old").
Proof.
  intros Hd. rewrite errorMessage_age, Hd. unfold age_setValueAs.
  split; [|split].
  - intros ->. reflexivity.
  - intros Hne Hp. apply String.eqb_neq in Hne. rewrite Hne, Hp. reflexivity.
  - intros k Hne Hp Hk. apply String.eqb_neq in Hne. rewrite Hne, Hp.
    unfold ageSchema, Zod.number, numberChecks, ofZ, lt.
    assert (L : Qle_bool (inject_Z 10) (inject_Z k) = false).
    { destruct (Qle_bool (inject_Z 10) (inject_Z k)) eqn:E; [|reflexivity].
      apply Qle_bool_iff in E. rewrite <- Zle_Qle in E. lia. }
    rewrite L. reflexivity.
Qed.

End AgeInput.


Lemma age_input_messages_witness :
  errorMessage Sample.loadedAt Sample.loadedAt
               (Draft.set_age (age_setValueAs EmptyString) Sample.filled) "age"
  = Some "Required" /\
  errorMessage Sample.loadedAt Sample.loadedAt
               (Draft.set_age (age_setValueAs "e") Sample.filled) "age"
  = Some "Expected number, received nan" /\
  errorMessage Sample.loadedAt Sample.loadedAt
               (Draft.set_age (age_setValueAs "9.9") Sample.filled) "age"
  = Some "Must be at least 10 years old".
Proof.
  split; [|split].
  - apply (proj1 (age_input_messages Sample.loadedAt Sample.loadedAt
                    (Draft.set_age (age_setValueAs EmptyString) Sample.filled)
                    EmptyString eq_refl)).
    reflexivity.
  - apply (proj1 (proj2 (age_input_messages Sample.loadedAt Sample.loadedAt
                    (Draft.set_age (age_setValueAs "e") Sample.filled)
                    "e" eq_refl))); [discriminate | reflexivity].
  - apply (proj2 (proj2 (age_input_messages Sample.loadedAt Sample.loadedAt
                    (Draft.set_age (age_setValueAs "9.9") Sample.filled)
                    "9.9" eq_refl)) 9%Z); [discriminate | reflexivity | lia].
Defined.

(* ------------------------------------------------------------------ *)
(** ** The website is compared and kept in lower case (lines 15-21) *)

Lemma toLowerCase_empty s :
  String.eqb (toLowerCase s) EmptyString = String.eqb s EmptyString.
Proof. now destruct s. Qed.

(** Capitals make no difference to the validation of a website, and the
    value that a passing website is parsed to is its lower-case form. *)
Theorem website_case_insensitive p s :
  snd (websiteSchema p (Str (toLowerCase s))) = snd (websiteSchema p (Str s)) /\
  (s <> EmptyString -> isOK (fst (websiteSchema p (Str s))) = true ->
   fst (websiteSchema p (Str s)) = Zod.OK (inl (Some (toLowerCase s)))).
Proof.
  rewrite !websiteSchema_string, length_toLowerCase, indexOf_dot_toLowerCase,
    toLowerCase_idempotent, toLowerCase_empty.
  split.
  - destruct (negb (String.length s <? 5)%nat && negb (indexOf s "." =? -1)%Z);
      [reflexivity|].
    now destruct (String.eqb s EmptyString).
  - intros Hne. apply String.eqb_neq in Hne. rewrite Hne.
    destruct (negb (String.length s <? 5)%nat && negb (indexOf s "." =? -1)%Z);
      [reflexivity | discriminate].
Qed.

(* ------------------------------------------------------------------ *)
(** ** The age of a draft that passes (lines 13 and 49-66) *)

Section AgeIsWhole.
Import Zod Resolver.
Variables created now : Z.
Variable d : Draft.t.






End AgeIsWhole.

